(** * Restricted Boltzmann Machines of [rbm.py]: model and properties

    A shallow embedding of [rbm.py], the module of Restricted Boltzmann
    Machines and of their sampling strategies, and the properties that its
    specification states about it.

    How the Python is read:

    - [rbm.py] builds Theano expressions.  An expression is represented here
      by the value it denotes for the current contents of the shared
      variables and for the numbers that the random streams deliver, so a
      function that returns an expression becomes a function that returns a
      tensor.
    - A tensor is its shape together with its entries, as a numpy array is.
      [floatX] numbers are idealised as rationals ([Q]); the transcendental
      functions of the backend ([sigmoid], [softplus], [exp], [sqrt]), the
      random number generators, the differentiation routine and the
      optimizer are interfaces (classes below), since they are not code of
      this module.
    - An operation on operands whose shapes disagree fails when the compiled
      graph runs, which is outside the functions modelled here.  The
      operations below are total (they take the shape of one operand) and
      the statements are made for operands of agreeing shapes.
    - A float division by zero gives [inf] or [nan], and the square root
      of a negative float gives [nan], which every later operation passes
      on; the rationals have neither.  The values below are those of the
      code where every divisor is nonzero and every square root is taken of
      a number that is not negative ([model_defined] below), and the
      statements on the sign or on the range of a value are made there.
    - Python exceptions are values of [exn]; a function that may raise
      returns a [Res].  Object identity, the allocation of shared variables
      and attributes attached to an object after its construction live in
      the [world]; the state of a random number generator is passed
      explicitly and returned. *)

From Stdlib Require Import QArith ZArith List String Lia Lqa.
Local Open Scope string_scope.
From stdpp Require Import base gmap strings list.

(** ** Exceptions and results *)

Inductive exn : Type :=
  | NotImplementedError (msg : string)
  | UnboundLocalError (name : string)
  | KeyError (key : positive)
  | TypeError (msg : string)
  | AttributeError (msg : string)
  | IndexError (msg : string)
  | AssertionError.

Inductive Res (A : Type) : Type :=
  | Ok (a : A)
  | Raise (e : exn).
Arguments Ok {A} a.
Arguments Raise {A} e.

(** ** A state and exception monad

    [StErr S A] is a computation over a state [S] that returns an [A] or
    raises; the state survives an exception, as the mutations of a Python
    object do. *)

Definition StErr (S A : Type) : Type := S -> Res A * S.

Definition ret {S A} (a : A) : StErr S A := fun s => (Ok a, s).

Definition raise {S A} (e : exn) : StErr S A := fun s => (Raise e, s).

Definition bind {S A B} (m : StErr S A) (k : A -> StErr S B) : StErr S B :=
  fun s =>
    match m s with
    | (Ok a, s') => k a s'
    | (Raise e, s') => (Raise e, s')
    end.

Definition lift_res {S A} (r : Res A) : StErr S A := fun s => (r, s).

Declare Scope sterr_scope.
Delimit Scope sterr_scope with sterr.
Notation "x <~ m ;; k" := (bind m (fun x => k))
  (at level 20, m at level 99, k at level 200, only parsing) : sterr_scope.
Notation "' p <~ m ;; k" := (bind m (fun x => let 'p := x in k))
  (at level 20, p pattern, m at level 99, k at level 200, only parsing)
  : sterr_scope.
Local Open Scope sterr_scope.

(** ** Tensors *)

Definition vector := list Q.

Record matrix : Type := Matrix {
  mshape : nat * nat;
  mrows : list (list Q)
}.

Record tensor3 : Type := Tensor3 {
  t3shape : nat * nat * nat;
  t3rows : list (list (list Q))
}.

Definition nrow (m : matrix) : nat := fst (mshape m).
Definition ncol (m : matrix) : nat := snd (mshape m).

Definition item (v : vector) (i : nat) : Q := nth i v 0%Q.

Definition entry (m : matrix) (i j : nat) : Q :=
  nth j (nth i (mrows m) []) 0%Q.

Definition entry3 (x : tensor3) (i j t : nat) : Q :=
  nth t (nth j (nth i (t3rows x) []) []) 0%Q.

Definition vtabulate (n : nat) (f : nat -> Q) : vector := map f (seq 0 n).

Definition tabulate (r c : nat) (f : nat -> nat -> Q) : matrix :=
  {| mshape := (r, c);
     mrows := map (fun i => vtabulate c (f i)) (seq 0 r) |}.

Definition tabulate3 (d0 d1 d2 : nat) (f : nat -> nat -> nat -> Q) : tensor3 :=
  {| t3shape := (d0, d1, d2);
     t3rows := map (fun i => map (fun j => vtabulate d2 (f i j)) (seq 0 d1))
                   (seq 0 d0) |}.

(** The rows are as many and as long as the shape says. *)
Definition wf_matrix (m : matrix) : Prop :=
  length (mrows m) = nrow m /\ Forall (fun r => length r = ncol m) (mrows m).

(** [sum_to n f] is f 0 + f 1 + ... + f (n-1), added from the left. *)
Definition sum_to (n : nat) (f : nat -> Q) : Q :=
  fold_left Qplus (vtabulate n f) 0%Q.

(** numpy.zeros. *)
Definition zeros1 (n : nat) : vector := vtabulate n (fun _ => 0%Q).
Definition zeros2 (r c : nat) : matrix := tabulate r c (fun _ _ => 0%Q).

(** [tensor.dot] of two matrices, and of a matrix with a vector. *)
Definition dot (a b : matrix) : matrix :=
  tabulate (nrow a) (ncol b)
    (fun i j => sum_to (ncol a) (fun k => (entry a i k * entry b k j)%Q)).

Definition dot_mv (a : matrix) (v : vector) : vector :=
  vtabulate (nrow a)
    (fun i => sum_to (ncol a) (fun k => (entry a i k * item v k)%Q)).

(** The attribute [.T]. *)
Definition transpose (a : matrix) : matrix :=
  tabulate (ncol a) (nrow a) (fun i j => entry a j i).

(** Elementwise operations.  A vector operand is broadcast along the rows
    of the matrix operand, as Theano does for a vector of the length of the
    rows. *)
Definition map_matrix (f : Q -> Q) (a : matrix) : matrix :=
  tabulate (nrow a) (ncol a) (fun i j => f (entry a i j)).

Definition elemwise (op : Q -> Q -> Q) (a b : matrix) : matrix :=
  tabulate (nrow a) (ncol a) (fun i j => op (entry a i j) (entry b i j)).

Definition elemwise_mv (op : Q -> Q -> Q) (a : matrix) (v : vector) : matrix :=
  tabulate (nrow a) (ncol a) (fun i j => op (entry a i j) (item v j)).

Definition elemwise_vm (op : Q -> Q -> Q) (v : vector) (a : matrix) : matrix :=
  tabulate (nrow a) (ncol a) (fun i j => op (item v j) (entry a i j)).

Definition elemwise_vv (op : Q -> Q -> Q) (u v : vector) : vector :=
  vtabulate (length u) (fun i => op (item u i) (item v i)).

(** [x.sum(axis=1)] and [x.mean()]. *)
Definition sum_axis1 (a : matrix) : vector :=
  vtabulate (nrow a) (fun i => sum_to (ncol a) (fun j => entry a i j)).

Definition mean (v : vector) : Q :=
  (sum_to (length v) (item v) / inject_Z (Z.of_nat (length v)))%Q.

(** The entry at a position of the row-major buffer. *)
Definition flat (a : matrix) (p : nat) : Q :=
  entry a (p / ncol a) (p mod ncol a).

(** [x.reshape((-1, d1, d2))]: the same buffer read with another shape; the
    extent written [-1] is what remains of the size. *)
Definition reshape3 (a : matrix) (d1 d2 : nat) : tensor3 :=
  tabulate3 ((nrow a * ncol a) / (d1 * d2)) d1 d2
    (fun i j t => flat a (i * (d1 * d2) + j * d2 + t)).

(** [x.sum(axis=2)]. *)
Definition sum_axis2 (x : tensor3) : matrix :=
  let '(d0, d1, d2) := t3shape x in
  tabulate d0 d1 (fun i j => sum_to d2 (fun t => entry3 x i j t)).

(** [h.dimshuffle(0, 1, 'x') * s3]: the product with [h] broadcast along
    the last axis of [s3]. *)
Definition mul_dimshuffle_01x (h : matrix) (s3 : tensor3) : tensor3 :=
  let '(d0, d1, d2) := t3shape s3 in
  tabulate3 d0 d1 d2 (fun i j t => (entry h i j * entry3 s3 i j t)%Q).

(** [x.flatten(2)]: the last two axes merged. *)
Definition flatten2 (x : tensor3) : matrix :=
  let '(d0, d1, d2) := t3shape x in
  tabulate d0 (d1 * d2) (fun i p => entry3 x i (p / d2) (p mod d2)).

(** The comparison [a < b] cast to [floatX]: 1 where it holds, 0 elsewhere. *)
Definition lt_cast (x y : Q) : Q :=
  if Qlt_le_dec x y then 1%Q else 0%Q.

(** The scalar operation of [tensor.clip]: the lower bound where the entry
    is below it, else the upper bound where the entry is above it, else the
    entry. *)
Definition clip_scalar (p_min p_max x : Q) : Q :=
  if Qlt_le_dec x p_min then p_min
  else if Qlt_le_dec p_max x then p_max
  else x.

Definition clip (a : matrix) (p_min p_max : Q) : matrix :=
  map_matrix (clip_scalar p_min p_max) a.

Definition of_rows (c : nat) (rows : list (list Q)) : matrix :=
  {| mshape := (length rows, c); mrows := rows |}.

(** ** The collaborators of the module *)

(** The scalar functions of the tensor backend. *)
Class Backend : Type := {
  sigmoid : Q -> Q;
  softplus : Q -> Q;
  exp : Q -> Q;
  sqrt : Q -> Q
}.

(** Theano's random streams ([MRG_RandomStreams]): a stream is made from a
    seed and delivers one number at a time. *)
Class RandomStreams : Type := {
  stream : Type;
  stream_of_seed : Z -> stream;
  next_uniform : stream -> Q * stream;
  next_normal : stream -> Q * stream
}.

(** numpy's [RandomState]: [RandomState(seed)], [RandomState(None)], one
    number of [rand] and [randint(n)]. *)
Class NumpyRandom : Type := {
  RandomState : Type;
  RandomState_of_seed : Z -> RandomState;
  RandomState_of_None : RandomState;
  random_sample : RandomState -> Q * RandomState;
  randint : Z -> RandomState -> Z * RandomState
}.

(** An array of draws: one draw for each entry, row after row. *)
Fixpoint draw_vector {St} (draw : St -> Q * St) (n : nat) (s : St)
  : vector * St :=
  match n with
  | O => ([], s)
  | S n' =>
      let (x, s1) := draw s in
      let (xs, s2) := draw_vector draw n' s1 in
      (x :: xs, s2)
  end.

Fixpoint draw_rows {St} (draw : St -> Q * St) (r c : nat) (s : St)
  : list (list Q) * St :=
  match r with
  | O => ([], s)
  | S r' =>
      let (row, s1) := draw_vector draw c s in
      let (rows, s2) := draw_rows draw r' c s1 in
      (row :: rows, s2)
  end.

Definition draw_matrix {St} (draw : St -> Q * St) (size : nat * nat) (s : St)
  : matrix * St :=
  let (rows, s') := draw_rows draw (fst size) (snd size) s in
  ({| mshape := size; mrows := rows |}, s').

(** ** Shared variables, objects and the world *)

(** A shared variable: its identity, its name and the array it holds.  No
    function of the module stores into a shared variable: its new value is
    declared in an update set, to be committed by the caller. *)
Record shared (A : Type) : Type := Shared {
  sv_id : positive;
  sv_name : string;
  get_value : A
}.
Arguments Shared {A} sv_id sv_name get_value.
Arguments sv_id {A} s.
Arguments sv_name {A} s.
Arguments get_value {A} s.

Inductive ndarray : Type :=
  | Vec (v : vector)
  | Mat (m : matrix).

Definition shared_vec (s : shared vector) : shared ndarray :=
  Shared (sv_id s) (sv_name s) (Vec (get_value s)).

Definition shared_mat (s : shared matrix) : shared ndarray :=
  Shared (sv_id s) (sv_name s) (Mat (get_value s)).

(** An update set: a dict from shared variables, compared by identity, to
    their next values. *)
Abbreviation update_set := (gmap positive ndarray).

(** The world: the next unused identity, and the attribute [h_sample] of
    the model objects that have it, by the identity of the object. *)
Record world : Type := World {
  next_id : positive;
  h_sample_attr : gmap positive (shared matrix)
}.

Abbreviation Py := (StErr world).

Definition fresh_id : Py positive :=
  fun w => (Ok (next_id w),
            {| next_id := Pos.succ (next_id w);
               h_sample_attr := h_sample_attr w |}).

(** Modelled from the spec: [sharedX] is a function of utils.py, which is
    not among the sources; the specification counts it with the
    shared-variable infrastructure.  [sharedX(value, name)] makes a new
    shared variable, of an identity not given before, that holds [value]
    under [name]. *)
Definition sharedX {A} (value : A) (name : string) : Py (shared A) :=
  i <~ fresh_id ;; ret (Shared i name value).

(** [getattr(obj, 'h_sample')] when the attribute is there, and
    [obj.h_sample = value]. *)
Definition get_h_sample (obj : positive) : Py (option (shared matrix)) :=
  fun w => (Ok (h_sample_attr w !! obj), w).

Definition set_h_sample (obj : positive) (value : shared matrix) : Py unit :=
  fun w => (Ok tt,
            {| next_id := next_id w;
               h_sample_attr := <[obj := value]> (h_sample_attr w) |}).

(** ** The models *)

(** The attributes that [RBM.__init__] sets. *)
Record RBM_attrs : Type := {
  visbias : shared vector;
  hidbias : shared vector;
  weights : shared matrix;
  batch_size : nat;
  nhid : nat;
  nvis : nat
}.

(** The attributes that [mu_pooled_ssRBM.__init__] sets; [alpha] is the
    expression [tensor.exp(self.log_alpha)]. *)
Record ssRBM_attrs : Type := {
  ss_nhid : nat;
  ss_nslab : nat;
  n_s_per_h : nat;
  ss_nvis : nat;
  ss_batch_size : nat;
  log_alpha : shared vector;
  mu : shared vector;
  b : shared vector;
  W : shared matrix;
  B : shared vector;
  Lambda : shared matrix
}.

(** An object of one of the three classes, with its identity. *)
Inductive model : Type :=
  | RBM (self : positive) (a : RBM_attrs)
  | GaussianBinaryRBM (self : positive) (a : RBM_attrs)
      (sigma : shared vector) (mean_vis : bool)
  | mu_pooled_ssRBM (self : positive) (a : ssRBM_attrs).

Definition object_id (m : model) : positive :=
  match m with
  | RBM self _ | GaussianBinaryRBM self _ _ _ | mu_pooled_ssRBM self _ => self
  end.

Definition model_batch_size (m : model) : nat :=
  match m with
  | RBM _ a | GaussianBinaryRBM _ a _ _ => batch_size a
  | mu_pooled_ssRBM _ a => ss_batch_size a
  end.

Definition model_nhid (m : model) : nat :=
  match m with
  | RBM _ a | GaussianBinaryRBM _ a _ _ => nhid a
  | mu_pooled_ssRBM _ a => ss_nhid a
  end.

Definition model_nvis (m : model) : nat :=
  match m with
  | RBM _ a | GaussianBinaryRBM _ a _ _ => nvis a
  | mu_pooled_ssRBM _ a => ss_nvis a
  end.

(** The attribute [_params]. *)
Definition _params (m : model) : list (shared ndarray) :=
  match m with
  | RBM _ a | GaussianBinaryRBM _ a _ _ =>
      [shared_vec (visbias a); shared_vec (hidbias a); shared_mat (weights a)]
  | mu_pooled_ssRBM _ a =>
      [shared_vec (mu a); shared_vec (B a); shared_mat (Lambda a);
       shared_mat (W a); shared_vec (b a); shared_vec (log_alpha a)]
  end.

(** Modelled from the spec: [params()] is a method of [Block] (base.py),
    which is not among the sources; the specification gives it as
    [parameters() -> ordered sequence of tensors], here the list kept in
    [_params]. *)
Definition params (m : model) : list (shared ndarray) := _params m.

(** Symbolic differentiation ([tensor.grad]): from a scalar cost, which
    depends on the model through its shared variables, the variables to
    differentiate with respect to and the inputs to hold constant, to one
    gradient for each variable. *)
Class AutoDiff : Type := {
  tensor_grad :
    (model -> Q) -> model -> list (shared ndarray) -> list matrix ->
    list ndarray
}.

(** The optimizer: [optimizer.updates(gradients=grads)]. *)
Record Optimizer : Type := {
  optimizer_updates : list ndarray -> update_set
}.

(** ** The methods of the three classes *)

(** What [locals()] holds when a Gibbs step returns; [slab] holds the
    variables that only [mu_pooled_ssRBM.gibbs_step_for_v] has. *)
Record slab_locals : Type := {
  s_mu : matrix;
  s_var : vector;
  s_mu_shape : nat * nat;
  s_sample : matrix;
  v_var : matrix
}.

Record gibbs_locals : Type := {
  h_mean : matrix;
  h_mean_shape : nat * nat;
  h_sample : matrix;
  v_mean_shape : nat * nat;
  v_mean : matrix;
  v_sample : matrix;
  slab : option slab_locals
}.

Section Methods.
Context `{Backend} `{RandomStreams}.

(** [rng.uniform(size=...)] and [rng.normal(size=...)]. *)
Definition rng_uniform (size : nat * nat) : StErr stream matrix :=
  fun s => let (u, s') := draw_matrix next_uniform size s in (Ok u, s').

Definition rng_normal (size : nat * nat) : StErr stream matrix :=
  fun s => let (u, s') := draw_matrix next_normal size s in (Ok u, s').

(** *** [RBM]: the binary-binary case

    [input_to_h_from_v], [mean_h_given_v] and [mean_v_given_h] test whether
    their argument is a tensor; the definitions are the branch of a tensor.
    For another argument, a list of tensors, the method is mapped over the
    list. *)

Definition RBM_input_to_h_from_v (a : RBM_attrs) (v : matrix) : matrix :=
  elemwise_vm Qplus (get_value (hidbias a)) (dot v (get_value (weights a))).

Definition RBM_mean_v_given_h (a : RBM_attrs) (h : matrix) : matrix :=
  map_matrix sigmoid
    (elemwise_vm Qplus (get_value (visbias a))
       (dot h (transpose (get_value (weights a))))).

Definition RBM_sample_visibles (params : list matrix) (shape : nat * nat)
  : StErr stream matrix :=
  match params with
  | [] => raise (IndexError "list index out of range")
  | v_mean :: _ =>
      u <~ rng_uniform shape ;;
      ret (elemwise lt_cast u v_mean)
  end.

(** *** [GaussianBinaryRBM] *)

Definition GaussianBinaryRBM_input_to_h_from_v
  (a : RBM_attrs) (sigma : shared vector) (v : matrix) : matrix :=
  elemwise_vm Qplus (get_value (hidbias a))
    (dot (elemwise_mv Qdiv v (get_value sigma)) (get_value (weights a))).

Definition GaussianBinaryRBM_mean_v_given_h
  (a : RBM_attrs) (sigma : shared vector) (h : matrix) : matrix :=
  elemwise_vm Qplus (get_value (visbias a))
    (elemwise_vm Qmult (get_value sigma)
       (dot h (transpose (get_value (weights a))))).

Definition GaussianBinaryRBM_sample_visibles
  (sigma : shared vector) (mean_vis : bool)
  (params : list matrix) (shape : nat * nat) : StErr stream matrix :=
  match params with
  | [] => raise (IndexError "list index out of range")
  | v_mean :: _ =>
      if mean_vis then ret v_mean
      else
        n <~ rng_normal shape ;;
        let zero_mean := elemwise_mv Qmult n (get_value sigma) in
        ret (elemwise Qplus zero_mean v_mean)
  end.

(** *** [mu_pooled_ssRBM] *)

Definition alpha (a : ssRBM_attrs) : vector :=
  map exp (get_value (log_alpha a)).

(** The local function [sum_s] of [input_to_h_from_v]. *)
Definition sum_s (a : ssRBM_attrs) (x : matrix) : matrix :=
  sum_axis2 (reshape3 x (ss_nhid a) (n_s_per_h a)).

Definition mu_pooled_ssRBM_input_to_h_from_v (a : ssRBM_attrs) (v : matrix)
  : matrix :=
  let D := get_value (Lambda a) in
  let alpha := alpha a in
  elemwise Qplus
    (elemwise Qplus
       (elemwise_vm Qplus (get_value (b a))
          (map_matrix (Qmult (-1 # 2)) (dot (elemwise Qmult v v) D)))
       (sum_s a (elemwise_vm Qmult (get_value (mu a))
                   (dot v (get_value (W a))))))
    (sum_s a (elemwise_mv Qdiv
                (map_matrix (Qmult (1 # 2))
                   (map_matrix (fun x => (x * x)%Q) (dot v (get_value (W a)))))
                alpha)).

(** [v_var] is [1 / (B + h.Lambda^T)]: the value of the code where that
    precision is not zero (the code gives [inf] at a zero precision). *)
Definition mean_var_v_given_h_s (a : ssRBM_attrs) (h s : matrix)
  : matrix * matrix :=
  let v_var :=
    map_matrix (Qdiv 1)
      (elemwise_vm Qplus (get_value (B a))
         (dot h (transpose (get_value (Lambda a))))) in
  let s3 := reshape3 s (ss_nhid a) (n_s_per_h a) in
  let hs := mul_dimshuffle_01x h s3 in
  let v_mu :=
    elemwise Qmult (dot (flatten2 hs) (transpose (get_value (W a)))) v_var in
  (v_mu, v_var).

Definition mean_var_s_given_v_h1 (a : ssRBM_attrs) (v : matrix)
  : matrix * vector :=
  let alpha := alpha a in
  (elemwise_vm Qplus (get_value (mu a))
     (elemwise_mv Qdiv (dot v (get_value (W a))) alpha),
   map (Qdiv 1) alpha).

Definition mu_pooled_ssRBM_sample_visibles
  (params : list matrix) (shape : nat * nat) : StErr stream matrix :=
  raise (NotImplementedError "mu_pooled_ssRBM.sample_visibles").

Definition mu_pooled_ssRBM_mean_v_given_h (h : matrix) : Res matrix :=
  Raise (NotImplementedError "mu_pooled_ssRBM.mean_v_given_h").

(** *** Method resolution

    A call [self.method(...)] runs the method of the class of [self]: the
    one the class defines, else the one it inherits from [RBM]. *)

Definition input_to_h_from_v (self : model) (v : matrix) : matrix :=
  match self with
  | RBM _ a => RBM_input_to_h_from_v a v
  | GaussianBinaryRBM _ a sigma _ => GaussianBinaryRBM_input_to_h_from_v a sigma v
  | mu_pooled_ssRBM _ a => mu_pooled_ssRBM_input_to_h_from_v a v
  end.

(** [RBM.mean_h_given_v], which the two other classes inherit. *)
Definition mean_h_given_v (self : model) (v : matrix) : matrix :=
  map_matrix sigmoid (input_to_h_from_v self v).

Definition mean_v_given_h (self : model) (h : matrix) : Res matrix :=
  match self with
  | RBM _ a => Ok (RBM_mean_v_given_h a h)
  | GaussianBinaryRBM _ a sigma _ => Ok (GaussianBinaryRBM_mean_v_given_h a sigma h)
  | mu_pooled_ssRBM _ _ => mu_pooled_ssRBM_mean_v_given_h h
  end.

Definition sample_visibles (self : model) (params : list matrix)
  (shape : nat * nat) : StErr stream matrix :=
  match self with
  | RBM _ _ => RBM_sample_visibles params shape
  | GaussianBinaryRBM _ _ sigma mean_vis =>
      GaussianBinaryRBM_sample_visibles sigma mean_vis params shape
  | mu_pooled_ssRBM _ _ => mu_pooled_ssRBM_sample_visibles params shape
  end.

(** *** Arguments that are not tensors

    When the argument of [input_to_h_from_v], [mean_h_given_v] or
    [mean_v_given_h] is not a tensor it is a list, and the method is
    applied to each of its elements.  [mu_pooled_ssRBM.input_to_h_from_v]
    and [GaussianBinaryRBM.mean_v_given_h] have no such branch. *)

#[local] Unset Elimination Schemes.
Inductive tensor_like : Type :=
  | Tensor (x : matrix)
  | TensorList (l : list tensor_like).
#[local] Set Elimination Schemes.

Fixpoint each_tensor (f : matrix -> matrix) (v : tensor_like) : tensor_like :=
  match v with
  | Tensor x => Tensor (f x)
  | TensorList l => TensorList (map (each_tensor f) l)
  end.

Definition RBM_input_to_h_from_v_like (a : RBM_attrs) :=
  each_tensor (RBM_input_to_h_from_v a).

Definition GaussianBinaryRBM_input_to_h_from_v_like
  (a : RBM_attrs) (sigma : shared vector) :=
  each_tensor (GaussianBinaryRBM_input_to_h_from_v a sigma).

Definition mean_h_given_v_like (self : model) :=
  each_tensor (mean_h_given_v self).

Definition RBM_mean_v_given_h_like (a : RBM_attrs) :=
  each_tensor (RBM_mean_v_given_h a).

(** *** Free energies *)

Definition RBM_free_energy_given_v (self : model) (a : RBM_attrs) (v : matrix)
  : vector :=
  let sigmoid_arg := input_to_h_from_v self v in
  map Qopp
    (elemwise_vv Qplus (dot_mv v (get_value (visbias a)))
       (sum_axis1 (map_matrix softplus sigmoid_arg))).

Definition GaussianBinaryRBM_free_energy_given_v
  (self : model) (a : RBM_attrs) (sigma : shared vector) (v : matrix)
  : vector :=
  let hid_inp := input_to_h_from_v self v in
  let squared_term :=
    elemwise_mv Qdiv
      (map_matrix (fun x => (x ^ 2)%Q)
         (elemwise_vm Qminus (get_value (visbias a)) v))
      (get_value sigma) in
  elemwise_vv Qminus (sum_axis1 squared_term)
    (sum_axis1 (map_matrix softplus hid_inp)).

Definition mu_pooled_ssRBM_free_energy_given_v
  (self : model) (a : ssRBM_attrs) (v : matrix) : vector :=
  let sigmoid_arg := input_to_h_from_v self v in
  elemwise_vv Qplus
    (map (Qmult (1 # 2))
       (sum_axis1
          (elemwise_vm Qmult (get_value (B a))
             (map_matrix (fun x => (x ^ 2)%Q) v))))
    (map Qopp (sum_axis1 (map_matrix softplus sigmoid_arg))).

Definition free_energy_given_v (self : model) (v : matrix) : vector :=
  match self with
  | RBM _ a => RBM_free_energy_given_v self a v
  | GaussianBinaryRBM _ a sigma _ =>
      GaussianBinaryRBM_free_energy_given_v self a sigma v
  | mu_pooled_ssRBM _ a => mu_pooled_ssRBM_free_energy_given_v self a v
  end.

(** *** Gibbs steps *)

(** [RBM.gibbs_step_for_v], which [GaussianBinaryRBM] inherits. *)
Definition RBM_gibbs_step_for_v (self : model) (v : matrix)
  : StErr stream (matrix * gibbs_locals) :=
  let h_mean := mean_h_given_v self v in
  let h_mean_shape := (model_batch_size self, model_nhid self) in
  u <~ rng_uniform h_mean_shape ;;
  let h_sample := elemwise lt_cast u h_mean in
  let v_mean_shape := (model_batch_size self, model_nvis self) in
  v_mean <~ lift_res (mean_v_given_h self h_sample) ;;
  v_sample <~ sample_visibles self [v_mean] v_mean_shape ;;
  ret (v_sample,
       {| h_mean := h_mean; h_mean_shape := h_mean_shape;
          h_sample := h_sample; v_mean_shape := v_mean_shape;
          v_mean := v_mean; v_sample := v_sample; slab := None |}).

(** The square roots are those of the variances [s_var] and [v_var]: the
    values of the code where the precisions are positive (the code gives
    [nan] for the square root of a negative variance). *)
Definition mu_pooled_ssRBM_gibbs_step_for_v
  (self : model) (a : ssRBM_attrs) (v : matrix)
  : StErr stream (matrix * gibbs_locals) :=
  let h_mean := mean_h_given_v self v in
  let h_mean_shape := (ss_batch_size a, ss_nhid a) in
  u <~ rng_uniform h_mean_shape ;;
  let h_sample := elemwise lt_cast u h_mean in
  let '(s_mu, s_var) := mean_var_s_given_v_h1 a v in
  let s_mu_shape := (ss_batch_size a, ss_nslab a) in
  n <~ rng_normal s_mu_shape ;;
  let s_sample := elemwise Qplus s_mu (elemwise_mv Qmult n (map sqrt s_var)) in
  let '(v_mean, v_var) := mean_var_v_given_h_s a h_sample s_sample in
  let v_mean_shape := (ss_batch_size a, ss_nvis a) in
  n' <~ rng_normal v_mean_shape ;;
  let v_sample :=
    elemwise Qplus (elemwise Qmult n' (map_matrix sqrt v_var)) v_mean in
  ret (v_sample,
       {| h_mean := h_mean; h_mean_shape := h_mean_shape;
          h_sample := h_sample; v_mean_shape := v_mean_shape;
          v_mean := v_mean; v_sample := v_sample;
          slab := Some {| s_mu := s_mu; s_var := s_var;
                          s_mu_shape := s_mu_shape; s_sample := s_sample;
                          v_var := v_var |} |}).

Definition gibbs_step_for_v (self : model) (v : matrix)
  : StErr stream (matrix * gibbs_locals) :=
  match self with
  | RBM _ _ | GaussianBinaryRBM _ _ _ _ => RBM_gibbs_step_for_v self v
  | mu_pooled_ssRBM _ a => mu_pooled_ssRBM_gibbs_step_for_v self a v
  end.

End Methods.

(** ** Construction of the models *)

(** The argument [rng] of a constructor: [None], an integer seed, or a
    [RandomState] object.  The object is used by reference: a constructor
    returns the state that its draws leave it in. *)
Inductive rng_arg `{NumpyRandom} : Type :=
  | rng_None
  | rng_int (seed : Z)
  | rng_object (st : RandomState).

Section Construction.
Context `{Backend} `{RandomStreams} `{NumpyRandom}.

(** The argument is an integer seed. *)
Definition is_rng_int (rng : rng_arg) : bool :=
  match rng with rng_int _ => true | _ => false end.

(** [rng.rand(r, c)]. *)
Definition rand (r c : nat) (rng : rng_arg) : Py (matrix * rng_arg) :=
  match rng with
  | rng_None => raise (AttributeError "'NoneType' object has no attribute 'rand'")
  | rng_int _ => raise (AttributeError "'int' object has no attribute 'rand'")
  | rng_object st =>
      let (x, st') := draw_matrix random_sample (r, c) st in
      ret (x, rng_object st')
  end.

(** The body of [RBM.__init__]; it returns the attributes and the [rng]
    argument after the draws ([None] stays [None]: the generator made for it
    is local). *)
Definition RBM__init__ (nvis nhid : nat) (batch_size : nat) (irange : Q)
  (rng : rng_arg) : Py (RBM_attrs * rng_arg) :=
  let rng_used :=
    match rng with
    | rng_None => rng_object (RandomState_of_seed 1001)
    | _ => rng
    end in
  visbias <~ sharedX (zeros1 nvis) "vb" ;;
  hidbias <~ sharedX (zeros1 nhid) "hb" ;;
  '(x, rng_after) <~ rand nvis nhid rng_used ;;
  weights <~ sharedX (map_matrix (fun u => ((1 # 2) - u) * irange)%Q x) "W" ;;
  ret ({| visbias := visbias; hidbias := hidbias; weights := weights;
          batch_size := batch_size; nhid := nhid; nvis := nvis |},
       match rng with rng_None => rng_None | _ => rng_after end).

(** [RBM(nvis, nhid, batch_size, irange, rng)]. *)
Definition new_RBM (nvis nhid : nat) (batch_size : nat) (irange : Q)
  (rng : rng_arg) : Py (model * rng_arg) :=
  self <~ fresh_id ;;
  '(a, rng') <~ RBM__init__ nvis nhid batch_size irange rng ;;
  ret (RBM self a, rng').

(** [GaussianBinaryRBM(nvis, nhid, batch_size, irange, rng, mean_vis)]. *)
Definition new_GaussianBinaryRBM (nvis nhid : nat) (batch_size : nat)
  (irange : Q) (rng : rng_arg) (mean_vis : bool) : Py (model * rng_arg) :=
  self <~ fresh_id ;;
  '(a, rng') <~ RBM__init__ nvis nhid batch_size irange rng ;;
  sigma <~ sharedX (vtabulate nvis (fun _ => 1%Q)) "sigma" ;;
  ret (GaussianBinaryRBM self a sigma mean_vis, rng').

(** Modelled from the spec: [StackedBlocks] is a class of base.py, which is
    not among the sources; the specification gives it as the pipeline that
    composes an ordered list of layers.  It is kept as that list. *)
Record StackedBlocks : Type := { layers : list model }.

(** [izip(a, b, c)]: triples, as many as the shortest argument has. *)
Fixpoint izip3 {A1 A2 A3} (l1 : list A1) (l2 : list A2) (l3 : list A3)
  : list (A1 * A2 * A3) :=
  match l1, l2, l3 with
  | x :: l1', y :: l2', z :: l3' => (x, y, z) :: izip3 l1' l2' l3'
  | _, _, _ => []
  end.

(** The loop of [build_stacked_RBM] over [seq], appending to [layers]. *)
Fixpoint build_layers (seq : list (nat * nat * nat)) (batch_size : nat)
  (vis_type : string) (input_mean_vis : option bool) (irange : Q)
  (rng : rng_arg) (layers : list model) : Py (list model * rng_arg) :=
  match seq with
  | [] => ret (layers, rng)
  | (k, nhid, nvis) :: seq' =>
      '(rbm, rng') <~
        (if (k =? 0)%nat && String.eqb vis_type "gaussian"
         then new_GaussianBinaryRBM nvis nhid batch_size irange rng
                (match input_mean_vis with Some true => true | _ => false end)
         else new_RBM (nvis - nvis) nhid batch_size irange rng) ;;
      build_layers seq' batch_size vis_type input_mean_vis irange rng'
        (layers ++ [rbm])
  end.

Definition build_stacked_RBM (nvis : nat) (nhids : list nat) (batch_size : nat)
  (vis_type : string) (input_mean_vis : option bool) (irange : Q)
  (rng : rng_arg) : Py (StackedBlocks * rng_arg) :=
  let layers := [] in
  if negb (String.eqb vis_type "binary" || String.eqb vis_type "gaussian")
  then raise AssertionError
  else
    _ <~ (if String.eqb vis_type "binary"
          then match input_mean_vis with
               | None => ret tt
               | Some _ => raise AssertionError
               end
          else (* [assert input_mean_vis in True, False] asks whether
                  [input_mean_vis] is a member of [True] *)
            raise (TypeError "argument of type 'bool' is not iterable")) ;;
    let nviss := nvis :: removelast nhids in
    let seq := izip3 (List.seq 0 (length nhids)) nhids nviss in
    '(layers, rng') <~
      build_layers seq batch_size vis_type input_mean_vis irange rng layers ;;
    ret ({| layers := layers |}, rng').

(** ** The persistent chain sampler *)

Record PersistentCDSampler : Type := {
  rbm : model;
  s_rng : stream;
  particles : shared matrix;
  steps : Z;
  particles_clip : option (Q * Q)
}.

(** [PersistentCDSampler(rbm, particles, rng, steps, particles_clip)]:
    [Sampler.__init__], then the two assignments. *)
Definition new_PersistentCDSampler (rbm : model) (particles : matrix)
  (rng : rng_arg) (steps : Z) (particles_clip : option (Q * Q))
  : Py (PersistentCDSampler * rng_arg) :=
  let st :=
    match rng with
    | rng_None => RandomState_of_None
    | rng_int seed => RandomState_of_seed seed
    | rng_object st => st
    end in
  let (seed, st') := randint (2 ^ 30) st in
  let s_rng := stream_of_seed seed in
  particles <~ sharedX particles "particles" ;;
  ret ({| rbm := rbm; s_rng := s_rng; particles := particles;
          steps := steps; particles_clip := particles_clip |},
       match rng with rng_object _ => rng_object st' | _ => rng end).

(** The loop [for i in xrange(steps)] of [updates], run [n] more times;
    [_locals] is [None] as long as the variable is not bound. *)
Fixpoint gibbs_loop (self : PersistentCDSampler) (n : nat)
  (particles : matrix) (_locals : option gibbs_locals)
  : StErr stream (matrix * option gibbs_locals) :=
  match n with
  | O => ret (particles, _locals)
  | S n' =>
      '(particles, _locals) <~ gibbs_step_for_v (rbm self) particles ;;
      let particles :=
        match particles_clip self with
        | Some (p_min, p_max) => clip particles p_min p_max
        | None => particles
        end in
      gibbs_loop self n' particles (Some _locals)
  end.

(** A computation on the stream of the sampler, run within [Py]. *)
Definition with_stream {A} (m : StErr stream A) (s : stream) : Py (A * stream) :=
  fun w =>
    match m s with
    | (Ok a, s') => (Ok (a, s'), w)
    | (Raise e, _) => (Raise e, w)
    end.

(** [PersistentCDSampler.updates]: the update set, and the sampler with its
    stream after the draws. *)
Definition updates (self : PersistentCDSampler)
  : Py (update_set * PersistentCDSampler) :=
  let steps := steps self in
  let particles0 := get_value (particles self) in
  '(particles', _locals, s_rng') <~
    with_stream (gibbs_loop self (Z.to_nat steps) particles0 None)
      (s_rng self) ;;
  attr <~ get_h_sample (object_id (rbm self)) ;;
  rbm_h_sample <~
    match attr with
    | Some x => ret x
    | None =>
        x <~ sharedX (zeros2 0 0) "h_sample" ;;
        _ <~ set_h_sample (object_id (rbm self)) x ;;
        ret x
    end ;;
  match _locals with
  | None => raise (UnboundLocalError "_locals")
  | Some _locals =>
      ret (<[sv_id rbm_h_sample := Mat (h_mean _locals)]>
             {[sv_id (particles self) := Mat particles']},
           {| rbm := rbm self; s_rng := s_rng'; particles := particles self;
              steps := steps; particles_clip := particles_clip self |})
  end.

(** ** Training updates *)

(** Modelled from the spec: [safe_update] is a function of utils.py, which
    is not among the sources.  The specification: the update-set merge
    utility is a safe merge with key-collision detection, and the merge must
    fail loudly if a key appears in both sets.  So [safe_update dict_to
    dict_from] raises when the two have a key in common, and else is
    [dict_to] extended with the items of [dict_from]. *)
Definition safe_update (dict_to dict_from : update_set) : Res update_set :=
  match elements (dom dict_to ∩ dom dict_from) with
  | [] => Ok (dict_to ∪ dict_from)
  | key :: _ => Raise (KeyError key)
  end.

Context `{AutoDiff}.

(** [RBM.ml_gradients], which the two other classes inherit. *)
Definition ml_gradients (self : model) (pos_v neg_v : matrix) : list ndarray :=
  let ml_cost := fun self : model =>
    (mean (free_energy_given_v self pos_v) -
     mean (free_energy_given_v self neg_v))%Q in
  let grads := tensor_grad ml_cost self (params self) [pos_v; neg_v] in
  grads.

Definition training_updates (visible_batch : matrix) (model : model)
  (sampler : PersistentCDSampler) (optimizer : Optimizer)
  : Py (update_set * PersistentCDSampler) :=
  let pos_v := visible_batch in
  let neg_v := get_value (particles sampler) in
  let grads := ml_gradients model pos_v neg_v in
  let ups := optimizer_updates optimizer grads in
  '(sampler_updates, sampler') <~ updates sampler ;;
  ups <~ lift_res (safe_update ups sampler_updates) ;;
  ret (ups, sampler').

End Construction.

(** ** Shapes *)

(** The shapes that [RBM.__init__] gives to the parameters. *)
Definition wf_RBM_attrs (a : RBM_attrs) : Prop :=
  length (get_value (visbias a)) = nvis a /\
  length (get_value (hidbias a)) = nhid a /\
  mshape (get_value (weights a)) = (nvis a, nhid a) /\
  wf_matrix (get_value (weights a)).

(** The shapes that [mu_pooled_ssRBM.__init__] gives to the parameters, for
    a positive number of slab units per hidden unit. *)
Definition wf_ssRBM_attrs (a : ssRBM_attrs) : Prop :=
  (0 < n_s_per_h a)%nat /\
  ss_nslab a = (ss_nhid a * n_s_per_h a)%nat /\
  length (get_value (log_alpha a)) = ss_nslab a /\
  length (get_value (mu a)) = ss_nslab a /\
  length (get_value (b a)) = ss_nhid a /\
  mshape (get_value (W a)) = (ss_nvis a, ss_nslab a) /\
  length (get_value (B a)) = ss_nvis a /\
  mshape (get_value (Lambda a)) = (ss_nvis a, ss_nhid a).

(** Every entry of the array satisfies [P]. *)
Definition all_entries (P : Q -> Prop) (a : matrix) : Prop :=
  Forall (Forall P) (mrows a).

(** ** The formulas of the specification

    The definitions of this section follow the words of the specification,
    entry by entry: [i] is an example of the minibatch, [k] a visible unit,
    [j] a hidden unit.  They are compared below with what the methods
    compute. *)

Section Specification.
Context `{Backend} `{RandomStreams}.

(** Gaussian-Binary: visible units scaled by [1/sigma] before the weight
    multiply, [hidbias + (v/sigma).W]. *)
Definition spec_Gaussian_input_to_h (a : RBM_attrs) (sigma : vector)
  (v : matrix) (i j : nat) : Q :=
  (item (get_value (hidbias a)) j +
   sum_to (nvis a)
     (fun k => (entry v i k / item sigma k) * entry (get_value (weights a)) k j))%Q.

(** Gaussian-Binary: [free_energy(v) = sum (visible_bias - v)^2/sigma -
    sum softplus(input_to_h_from_v(v))]. *)
Definition spec_Gaussian_free_energy (a : RBM_attrs) (sigma : vector)
  (v : matrix) (i : nat) : Q :=
  (sum_to (nvis a)
     (fun k => (item (get_value (visbias a)) k - entry v i k) ^ 2 / item sigma k) -
   sum_to (nhid a)
     (fun j => softplus (spec_Gaussian_input_to_h a sigma v i j)))%Q.

(** [spec_pool] sums each contiguous group of [n] slab entries into one
    hidden-unit entry. *)
Definition spec_pool (n : nat) (x : nat -> Q) (j : nat) : Q :=
  sum_to n (fun t => x (j * n + t)%nat).

(** The product [v.W] at example [i] and slab unit [s]. *)
Definition spec_vW (a : ssRBM_attrs) (v : matrix) (i s : nat) : Q :=
  sum_to (ss_nvis a) (fun k => (entry v i k * entry (get_value (W a)) k s)%Q).

(** Pooled spike-and-slab: [b - 1/2 (v^2.Lambda) + pool(mu * (v.W)) +
    pool(1/2 (v.W)^2 / alpha)]. *)
Definition spec_ssRBM_input_to_h (a : ssRBM_attrs) (v : matrix) (i j : nat) : Q :=
  (item (get_value (b a)) j -
   (1 # 2) * sum_to (ss_nvis a)
               (fun k => entry v i k ^ 2 * entry (get_value (Lambda a)) k j) +
   spec_pool (n_s_per_h a)
     (fun s => item (get_value (mu a)) s * spec_vW a v i s) j +
   spec_pool (n_s_per_h a)
     (fun s => (1 # 2) * spec_vW a v i s ^ 2 / exp (item (get_value (log_alpha a)) s)) j)%Q.

(** Pooled spike-and-slab: [free_energy(v) = 1/2 sum (B v^2) - sum
    softplus(input_to_h_from_v(v))]. *)
Definition spec_ssRBM_free_energy (a : ssRBM_attrs) (v : matrix) (i : nat) : Q :=
  ((1 # 2) * sum_to (ss_nvis a)
               (fun k => item (get_value (B a)) k * entry v i k ^ 2) -
   sum_to (ss_nhid a) (fun j => softplus (spec_ssRBM_input_to_h a v i j)))%Q.

(** The mean over a minibatch of [n] examples. *)
Definition spec_mean (n : nat) (f : nat -> Q) : Q :=
  (sum_to n f / inject_Z (Z.of_nat n))%Q.

(** The contrastive-divergence objective: [mean(free_energy(positive)) -
    mean(free_energy(negative))]. *)
Definition spec_cd_objective (positive negative : matrix) (m : model) : Q :=
  (spec_mean (nrow positive) (item (free_energy_given_v m positive)) -
   spec_mean (nrow negative) (item (free_energy_given_v m negative)))%Q.

(** The clamp of every entry of the sample into the clip range, when a
    range is configured. *)
Definition clamp (range : option (Q * Q)) (sample : matrix) : matrix :=
  match range with
  | Some (lo, hi) => clip sample lo hi
  | None => sample
  end.

(** One step of the persistent chain: a Gibbs step from the particles, then
    the clamp of the sample. *)
Definition spec_chain_step (m : model) (range : option (Q * Q)) (p : matrix)
  : StErr stream matrix :=
  '(sample, _) <~ gibbs_step_for_v m p ;;
  ret (clamp range sample).

(** [k] steps in sequence, each fed with the output of the one before. *)
Fixpoint spec_chain (m : model) (range : option (Q * Q)) (k : nat) (p : matrix)
  : StErr stream matrix :=
  match k with
  | O => ret p
  | S k' => p' <~ spec_chain_step m range p ;; spec_chain m range k' p'
  end.




End Specification.

(** ** Calls of [updates] and the world

    What the statements on [updates] are made of. *)

Section Calls.
Context `{Backend} `{RandomStreams}.

(** [n] calls of [updates] one after the other, each on the sampler that
    the call before has left. *)
Fixpoint calls (n : nat) (self : PersistentCDSampler)
  : Py PersistentCDSampler :=
  match n with
  | O => ret self
  | S n' => '(_, self') <~ updates self ;; calls n' self'
  end.

(** The shared variable of the particles is older than every identity still
    to be given, and is not the variable attached to the model as
    [h_sample]. *)
Definition particles_apart (self : PersistentCDSampler) (w : world) : Prop :=
  (sv_id (particles self) < next_id w)%positive /\
  forall x, h_sample_attr w !! object_id (rbm self) = Some x ->
            sv_id x <> sv_id (particles self).

(** The sampler after a call: its stream has advanced. *)
Definition advanced (self : PersistentCDSampler) (s : stream)
  : PersistentCDSampler :=
  {| rbm := rbm self; s_rng := s; particles := particles self;
     steps := steps self; particles_clip := particles_clip self |}.

(** The variable that [updates] finds or attaches as [h_sample], and the
    world that it leaves. *)
Definition h_sample_var (self : PersistentCDSampler) (w : world)
  : shared matrix :=
  match h_sample_attr w !! object_id (rbm self) with
  | Some x => x
  | None => Shared (next_id w) "h_sample" (zeros2 0 0)
  end.

Definition world_after (self : PersistentCDSampler) (w : world) : world :=
  match h_sample_attr w !! object_id (rbm self) with
  | Some _ => w
  | None =>
      {| next_id := Pos.succ (next_id w);
         h_sample_attr :=
           <[object_id (rbm self) := h_sample_var self w]> (h_sample_attr w) |}
  end.

End Calls.

(** ** An instance of the collaborators

    Stand-ins with rational values for the backend, the generators, the
    differentiation routine and the optimizer, on which the definitions can
    be run. *)

Definition example_Backend : Backend :=
  {| sigmoid := fun x => if Qlt_le_dec x 0 then (1 # 4)%Q else (3 # 4)%Q;
     softplus := fun x => if Qlt_le_dec x 0 then 0%Q else x;
     exp := fun x => if Qlt_le_dec x 0 then (1 / (1 - x))%Q else (1 + x)%Q;
     sqrt := fun x => x |}.

Definition example_RandomStreams : RandomStreams :=
  {| stream := Z;
     stream_of_seed := fun seed => (seed mod 101)%Z;
     next_uniform := fun s => (((s mod 10)%Z # 10)%Q, ((7 * s + 3) mod 101)%Z);
     next_normal := fun s => ((((s mod 7) - 3)%Z # 2)%Q, ((5 * s + 1) mod 101)%Z) |}.

Definition example_NumpyRandom : NumpyRandom :=
  {| RandomState := Z;
     RandomState_of_seed := fun seed => (seed mod 101)%Z;
     RandomState_of_None := 42%Z;
     random_sample := fun s => (((s mod 10)%Z # 10)%Q, ((3 * s + 5) mod 101)%Z);
     randint := fun n s => ((s mod n)%Z, ((3 * s + 5) mod 101)%Z) |}.

Definition example_AutoDiff : AutoDiff :=
  {| tensor_grad := fun cost m wrt consider_constant =>
       map (fun p => match get_value p with
                     | Vec v => Vec (map (Qmult (cost m)) v)
                     | Mat x => Mat (map_matrix (Qmult (cost m)) x)
                     end) wrt |}.

(** An optimizer that declares, for each of the given variables, its
    gradient as next value. *)
Definition example_Optimizer (vars : list positive) : Optimizer :=
  {| optimizer_updates := fun grads => list_to_map (zip vars grads) |}.

Definition example_world : world :=
  {| next_id := 1%positive; h_sample_attr := ∅ |}.

(** A binary-binary model with 2 visible and 3 hidden units, and a sampler
    on it that makes 2 Gibbs steps at each call and clips into [[0, 1]]. *)
Definition example_RBM_attrs : RBM_attrs :=
  {| visbias := Shared 2 "vb" [0; 0]%Q;
     hidbias := Shared 3 "hb" [0; 0; 0]%Q;
     weights :=
       Shared 4 "W"
         (of_rows 3 [[1 # 10; -1 # 5; 1 # 4]; [1 # 20; -1 # 10; 1 # 20]]%Q);
     batch_size := 2;
     nhid := 3;
     nvis := 2 |}.

Definition example_model : model := RBM 1 example_RBM_attrs.

Definition example_sampler : @PersistentCDSampler example_RandomStreams :=
  {| rbm := example_model;
     s_rng := (85%Z : @stream example_RandomStreams);
     particles := Shared 5 "particles" (of_rows 2 [[1; 0]; [0; 1]]%Q);
     steps := 2;
     particles_clip := Some (0, 1)%Q |}.

(** The world after the construction of the model and of the sampler. *)
Definition example_world_sampler : world :=
  {| next_id := 6%positive; h_sample_attr := ∅ |}.

(** A pooled spike-and-slab model with 2 visible units, 2 hidden units and
    2 slab units for each hidden unit. *)
Definition example_ssRBM_attrs : ssRBM_attrs :=
  {| ss_nhid := 2;
     ss_nslab := 4;
     n_s_per_h := 2;
     ss_nvis := 2;
     ss_batch_size := 2;
     log_alpha := Shared 7 "log_alpha" [0; 0; 0; 0]%Q;
     mu := Shared 8 "mu" [1; 1; 1; 1]%Q;
     b := Shared 9 "b" [0; 0]%Q;
     W := Shared 10 "W" (of_rows 4 [[1; 0; 1; 0]; [0; 1; 0; 1]]%Q);
     B := Shared 11 "B" [1; 1]%Q;
     Lambda := Shared 12 "Lambda" (of_rows 2 [[1; 0]; [0; 1]]%Q) |}.

Definition example_batch : matrix := of_rows 2 [[1; 0]; [1 # 2; 1 # 2]]%Q.

(** ** More of the module: the reconstruction error and the third
    constructor *)

(** numpy's scalar functions used at construction: [numpy.log]. *)
Class NumpyMath : Type := {
  log : Q -> Q
}.

Definition example_NumpyMath : NumpyMath :=
  {| log := fun x => (x - 1)%Q |}.

Section More.
Context `{Backend} `{RandomStreams} `{NumpyRandom} `{NumpyMath}.

(** [RBM.reconstruction_error], which the two other classes inherit. *)
Definition reconstruction_error (self : model) (v : matrix) : StErr stream Q :=
  '(sample, _locals) <~ gibbs_step_for_v self v ;;
  ret (mean
         (sum_axis1
            (map_matrix (fun x => (x ^ 2)%Q)
               (elemwise Qminus (v_mean _locals) v)))).

(** [rng.rand(n)]. *)
Definition rand1 (n : nat) (rng : rng_arg) : Py (vector * rng_arg) :=
  match rng with
  | rng_None => raise (AttributeError "'NoneType' object has no attribute 'rand'")
  | rng_int _ => raise (AttributeError "'int' object has no attribute 'rand'")
  | rng_object st =>
      let (x, st') := draw_vector random_sample n st in
      ret (x, rng_object st')
  end.

(** The body of [mu_pooled_ssRBM.__init__]; it returns the attributes and
    the [rng] argument after the draws. *)
Definition mu_pooled_ssRBM__init__ (nvis nhid n_s_per_h : nat)
  (batch_size : nat) (alpha0 alpha_irange b0 B0 Lambda0 Lambda_irange mu0
   W_irange : Q) (rng : rng_arg) : Py (ssRBM_attrs * rng_arg) :=
  let rng_used :=
    match rng with
    | rng_None => rng_object (RandomState_of_seed 1001)
    | _ => rng
    end in
  let nslab := (nhid * n_s_per_h)%nat in
  let alpha_init := vtabulate nslab (fun _ => (0 + alpha0)%Q) in
  '(alpha_init, rng1) <~
    (if Qlt_le_dec 0 alpha_irange
     then
       '(u, rng1) <~ rand1 nslab rng_used ;;
       ret (elemwise_vv Qplus alpha_init
              (map (fun x => ((2 * x - 1) * alpha_irange)%Q) u), rng1)
     else ret (alpha_init, rng_used)) ;;
  log_alpha <~ sharedX (map log alpha_init) "log_alpha" ;;
  mu <~ sharedX (vtabulate nslab (fun _ => (0 + mu0)%Q)) "mu" ;;
  b <~ sharedX (vtabulate nhid (fun _ => (0 + b0)%Q)) "b" ;;
  '(x, rng2) <~ rand nvis nslab rng1 ;;
  W <~ sharedX
         (map_matrix (fun u => ((1 # 2) - u) * 2 * W_irange)%Q x) "W" ;;
  B <~ sharedX (vtabulate nvis (fun _ => (0 + B0)%Q)) "B" ;;
  '(L, rng3) <~
    (if Qlt_le_dec 0 Lambda_irange
     then
       '(y, rng3) <~ rand nvis nhid rng2 ;;
       ret (map_matrix (fun u => u * Lambda_irange + Lambda0)%Q y, rng3)
     else ret (tabulate nvis nhid (fun _ _ => (0 + Lambda0)%Q), rng2)) ;;
  Lambda <~ sharedX L "Lambda" ;;
  ret ({| ss_nhid := nhid; ss_nslab := nslab; n_s_per_h := n_s_per_h;
          ss_nvis := nvis; ss_batch_size := batch_size;
          log_alpha := log_alpha; mu := mu; b := b; W := W; B := B;
          Lambda := Lambda |},
       match rng with rng_None => rng_None | _ => rng3 end).

(** [mu_pooled_ssRBM(nvis, nhid, n_s_per_h, batch_size, ...)]. *)
Definition new_mu_pooled_ssRBM (nvis nhid n_s_per_h : nat)
  (batch_size : nat) (alpha0 alpha_irange b0 B0 Lambda0 Lambda_irange mu0
   W_irange : Q) (rng : rng_arg) : Py (model * rng_arg) :=
  self <~ fresh_id ;;
  '(a, rng') <~
    mu_pooled_ssRBM__init__ nvis nhid n_s_per_h batch_size alpha0
      alpha_irange b0 B0 Lambda0 Lambda_irange mu0 W_irange rng ;;
  ret (mu_pooled_ssRBM self a, rng').

(** The binary-binary model, entry by entry: the input of hidden unit [j]
    and the free energy, for example [i]; what hidden units [h] send to
    visible unit [k]. *)
Definition RBM_input_entry (a : RBM_attrs) (v : matrix) (i j : nat) : Q :=
  (item (get_value (hidbias a)) j +
   sum_to (nvis a)
     (fun k => entry v i k * entry (get_value (weights a)) k j))%Q.

Definition RBM_free_energy_entry (a : RBM_attrs) (v : matrix) (i : nat) : Q :=
  (- (sum_to (nvis a) (fun k => entry v i k * item (get_value (visbias a)) k) +
      sum_to (nhid a) (fun j => softplus (RBM_input_entry a v i j))))%Q.

Definition RBM_feedback_entry (a : RBM_attrs) (h : matrix) (i k : nat) : Q :=
  sum_to (nhid a) (fun j => (entry h i j * entry (get_value (weights a)) k j)%Q).

(** The pooled spike-and-slab model, entry by entry: the mean of slab unit
    [p] given the visible units; the variance and the mean of visible unit
    [k] given the hidden units [h] and the slab units [s], where slab unit
    [p] belongs to hidden unit [p / n_s_per_h]. *)
Definition ssRBM_s_mean_entry (a : ssRBM_attrs) (v : matrix) (i p : nat) : Q :=
  (item (get_value (mu a)) p +
   spec_vW a v i p / exp (item (get_value (log_alpha a)) p))%Q.

Definition ssRBM_v_var_entry (a : ssRBM_attrs) (h : matrix) (i k : nat) : Q :=
  (1 / (item (get_value (B a)) k +
        sum_to (ss_nhid a)
          (fun j => entry h i j * entry (get_value (Lambda a)) k j)))%Q.

Definition ssRBM_v_mean_entry (a : ssRBM_attrs) (h s : matrix) (i k : nat) : Q :=
  (sum_to (ss_nhid a * n_s_per_h a)
     (fun p => entry h i (p / n_s_per_h a) * entry s i p *
               entry (get_value (W a)) k p) *
   ssRBM_v_var_entry a h i k)%Q.

(** The parameters of the model have the shapes that its constructor gives
    them. *)
Definition model_wf (m : model) : Prop :=
  match m with
  | RBM _ a | GaussianBinaryRBM _ a _ _ => wf_RBM_attrs a
  | mu_pooled_ssRBM _ a => wf_ssRBM_attrs a
  end.

(** The numbers that the methods divide by and take the square root of are
    such that the code computes numbers: [sigma] has no zero; the
    precisions [alpha = exp(log_alpha)] and [B] are positive and [Lambda]
    is not negative, so that the precision [B + h.Lambda^T] of the visible
    units is positive for hidden units of 0 and 1. *)
Definition model_defined (m : model) : Prop :=
  match m with
  | RBM _ _ => True
  | GaussianBinaryRBM _ _ sigma _ =>
      Forall (fun x => ~ (x == 0)%Q) (get_value sigma)
  | mu_pooled_ssRBM _ a =>
      Forall (fun x => (0 < exp x)%Q) (get_value (log_alpha a)) /\
      Forall (fun x => (0 < x)%Q) (get_value (B a)) /\
      all_entries (fun x => (0 <= x)%Q) (get_value (Lambda a))
  end.

(** The sampler with no clip range. *)
Definition without_clip (self : PersistentCDSampler) : PersistentCDSampler :=
  {| rbm := rbm self; s_rng := s_rng self; particles := particles self;
     steps := steps self; particles_clip := None |}.

End More.

(** A sampler on the pooled spike-and-slab model that makes 2 Gibbs steps
    at each call and clips into [[0, 1]], and the world after its
    construction. *)
Definition example_ssRBM_sampler : @PersistentCDSampler example_RandomStreams :=
  {| rbm := mu_pooled_ssRBM 6 example_ssRBM_attrs;
     s_rng := (85%Z : @stream example_RandomStreams);
     particles := Shared 13 "particles" (of_rows 2 [[1; 0]; [0; 1]]%Q);
     steps := 2;
     particles_clip := Some (0, 1)%Q |}.

Definition example_world_ssRBM_sampler : world :=
  {| next_id := 14%positive; h_sample_attr := ∅ |}.

(** * Properties *)

(** ** The monad *)

Lemma bind_ret_l {S A B} (a : A) (k : A -> StErr S B) (s : S) :
  bind (ret a) k s = k a s.
Proof. reflexivity. Qed.

Lemma bind_ret_r {S A} (m : StErr S A) (s : S) : bind m ret s = m s.
Proof. unfold bind, ret. now destruct (m s) as [[a|e] s']. Qed.

Lemma bind_assoc {S A B C} (m : StErr S A) (k : A -> StErr S B)
  (k' : B -> StErr S C) (s : S) :
  bind (bind m k) k' s = bind m (fun a => bind (k a) k') s.
Proof. unfold bind. now destruct (m s) as [[a|e] s']. Qed.

(** An exception ends the computation. *)
Lemma bind_raise {S A B} (e : exn) (k : A -> StErr S B) (s : S) :
  bind (raise e) k s = (Raise e, s).
Proof. reflexivity. Qed.

(** ** Lemmas on tensors *)

Lemma length_vtabulate n f : length (vtabulate n f) = n.
Proof. unfold vtabulate. now rewrite length_map, length_seq. Qed.

Lemma item_vtabulate n f i : (i < n)%nat -> item (vtabulate n f) i = f i.
Proof.
  intros Hi. unfold item, vtabulate.
  rewrite (nth_indep _ 0%Q (f 0%nat)) by now rewrite length_map, length_seq.
  rewrite map_nth. now rewrite seq_nth.
Qed.

Lemma vtabulate_ext n f g :
  (forall i, (i < n)%nat -> f i = g i) -> vtabulate n f = vtabulate n g.
Proof.
  intros H. unfold vtabulate. apply map_ext_in.
  intros i Hi. apply in_seq in Hi. apply H. lia.
Qed.

Lemma sum_to_ext n f g :
  (forall i, (i < n)%nat -> f i = g i) -> sum_to n f = sum_to n g.
Proof. intros H. unfold sum_to. now rewrite (vtabulate_ext n f g). Qed.

Lemma entry_tabulate r c f i j :
  (i < r)%nat -> (j < c)%nat -> entry (tabulate r c f) i j = f i j.
Proof.
  intros Hi Hj. unfold entry, tabulate. simpl.
  rewrite (nth_indep _ [] (vtabulate c (f 0%nat)))
    by now rewrite length_map, length_seq.
  rewrite (map_nth (fun i => vtabulate c (f i))). rewrite seq_nth by lia.
  simpl. now apply item_vtabulate.
Qed.

Lemma tabulate_ext r c f g :
  (forall i j, (i < r)%nat -> (j < c)%nat -> f i j = g i j) ->
  tabulate r c f = tabulate r c g.
Proof.
  intros H. unfold tabulate. f_equal. apply map_ext_in.
  intros i Hi. apply in_seq in Hi. apply vtabulate_ext.
  intros j Hj. apply H; lia.
Qed.

Lemma wf_tabulate r c f : wf_matrix (tabulate r c f).
Proof.
  split.
  - unfold tabulate. simpl. now rewrite length_map, length_seq.
  - unfold tabulate. simpl. apply Forall_forall. intros row Hrow.
    apply list_elem_of_In in Hrow. apply in_map_iff in Hrow.
    destruct Hrow as [i [<- _]]. apply length_vtabulate.
Qed.

Lemma entry3_tabulate3 d0 d1 d2 f i j t :
  (i < d0)%nat -> (j < d1)%nat -> (t < d2)%nat ->
  entry3 (tabulate3 d0 d1 d2 f) i j t = f i j t.
Proof.
  intros Hi Hj Ht. unfold entry3, tabulate3. simpl.
  rewrite (nth_indep _ []
             (map (fun j => vtabulate d2 (f 0%nat j)) (seq 0 d1)))
    by now rewrite length_map, length_seq.
  rewrite (map_nth (fun i => map (fun j => vtabulate d2 (f i j)) (seq 0 d1))).
  rewrite seq_nth by lia. simpl.
  rewrite (nth_indep _ [] (vtabulate d2 (f i 0%nat)))
    by now rewrite length_map, length_seq.
  rewrite (map_nth (fun j => vtabulate d2 (f i j))).
  rewrite seq_nth by lia. simpl. now apply item_vtabulate.
Qed.

Section Properties.
Context `{Backend} `{RandomStreams} `{NumpyRandom} `{AutoDiff}.

(** ** Draws *)

Lemma draw_vector_app {St} (draw : St -> Q * St) n k s :
  draw_vector draw (n + k) s =
  let (xs, s1) := draw_vector draw n s in
  let (ys, s2) := draw_vector draw k s1 in
  (xs ++ ys, s2).
Proof.
  revert s. induction n as [|n IH]; intros s; simpl.
  - now destruct (draw_vector draw k s).
  - destruct (draw s) as [x s1]. rewrite IH.
    destruct (draw_vector draw n s1) as [xs s2].
    now destruct (draw_vector draw k s2).
Qed.

Lemma draw_rows_concat {St} (draw : St -> Q * St) r c s :
  draw_vector draw (r * c) s =
  let (rows, s') := draw_rows draw r c s in (concat rows, s').
Proof.
  revert s. induction r as [|r IH]; intros s; simpl; [reflexivity|].
  rewrite draw_vector_app.
  destruct (draw_vector draw c s) as [row s1]. rewrite IH.
  now destruct (draw_rows draw r c s1).
Qed.

Lemma draw_matrix_shape {St} (draw : St -> Q * St) size s :
  mshape (fst (draw_matrix draw size s)) = size.
Proof. unfold draw_matrix. now destruct (draw_rows draw _ _ s). Qed.

Lemma draw_matrix_concat {St} (draw : St -> Q * St) r c s :
  draw_vector draw (r * c) s =
  (concat (mrows (fst (draw_matrix draw (r, c) s))),
   snd (draw_matrix draw (r, c) s)).
Proof.
  rewrite draw_rows_concat. unfold draw_matrix. simpl.
  now destruct (draw_rows draw r c s).
Qed.

Lemma all_entries_tabulate (P : Q -> Prop) r c f :
  (forall i j, (i < r)%nat -> (j < c)%nat -> P (f i j)) ->
  all_entries P (tabulate r c f).
Proof.
  intros Hf. unfold all_entries, tabulate, vtabulate. simpl.
  apply Forall_forall. intros row Hrow.
  apply list_elem_of_In, in_map_iff in Hrow. destruct Hrow as [i [<- Hi]].
  apply in_seq in Hi.
  apply Forall_forall. intros x Hx.
  apply list_elem_of_In, in_map_iff in Hx. destruct Hx as [j [<- Hj]].
  apply in_seq in Hj. apply Hf; lia.
Qed.

Lemma lt_cast_bit x y : lt_cast x y = 0%Q \/ lt_cast x y = 1%Q.
Proof. unfold lt_cast. destruct (Qlt_le_dec x y); auto. Qed.

(** C3: a Gibbs step of the binary-binary model draws one uniform number
    for each hidden unit of each example, compares it with the entry of
    [h_mean = mean_h_given_v(v)] and takes 1 where the draw is below and 0
    elsewhere as [h_sample]; the mean of the visible units is
    [mean_v_given_h(h_sample)], computed from the sample. *)
Theorem C3_gibbs_step_samples_hidden
  (self : positive) (a : RBM_attrs) (v : matrix) (s : stream) :
  let m := RBM self a in
  exists u s1 sample l s2,
    draw_matrix next_uniform (batch_size a, nhid a) s = (u, s1) /\
    draw_vector next_uniform (batch_size a * nhid a) s = (concat (mrows u), s1) /\
    gibbs_step_for_v m v s = (Ok (sample, l), s2) /\
    h_mean l = mean_h_given_v m v /\
    h_sample l =
      tabulate (batch_size a) (nhid a)
        (fun i j => if Qlt_le_dec (entry u i j) (entry (h_mean l) i j)
                    then 1%Q else 0%Q) /\
    all_entries (fun x => x = 0%Q \/ x = 1%Q) (h_sample l) /\
    mean_v_given_h m (h_sample l) = Ok (v_mean l).
Proof.
  intros m.
  pose proof (draw_matrix_concat next_uniform (batch_size a) (nhid a) s) as Hc.
  pose proof (draw_matrix_shape next_uniform (batch_size a, nhid a) s) as Hs.
  destruct (draw_matrix next_uniform (batch_size a, nhid a) s) as [u s1] eqn:Hu.
  simpl in Hc, Hs.
  unfold gibbs_step_for_v, m, RBM_gibbs_step_for_v. simpl.
  unfold bind at 1. unfold rng_uniform at 1. rewrite Hu.
  unfold bind at 1. unfold lift_res at 1.
  unfold bind at 1. unfold RBM_sample_visibles, bind, rng_uniform.
  destruct (draw_matrix next_uniform (batch_size a, nvis a) s1) as [u' s2].
  simpl. eexists u, s1, _, _, s2.
  repeat split; try reflexivity; try assumption.
  - simpl. unfold elemwise, nrow, ncol. rewrite Hs. reflexivity.
  - simpl. unfold elemwise. apply all_entries_tabulate. intros. apply lt_cast_bit.
Qed.

(** ** Gibbs steps return *)

Lemma rng_uniform_returns size s :
  rng_uniform size s =
  (Ok (fst (draw_matrix next_uniform size s)),
   snd (draw_matrix next_uniform size s)).
Proof. unfold rng_uniform. now destruct (draw_matrix next_uniform size s). Qed.

Lemma rng_normal_returns size s :
  rng_normal size s =
  (Ok (fst (draw_matrix next_normal size s)),
   snd (draw_matrix next_normal size s)).
Proof. unfold rng_normal. now destruct (draw_matrix next_normal size s). Qed.

Lemma gibbs_step_for_v_returns (m : model) (v : matrix) (s : stream) :
  exists sample l s',
    gibbs_step_for_v m v s = (Ok (sample, l), s') /\
    h_mean l = mean_h_given_v m v /\
    v_sample l = sample.
Proof.
  destruct m as [self a | self a sigma mean_vis | self a].
  - unfold gibbs_step_for_v, RBM_gibbs_step_for_v. simpl.
    unfold bind at 1. rewrite rng_uniform_returns.
    unfold bind at 1. unfold lift_res at 1.
    unfold bind at 1. unfold RBM_sample_visibles, bind.
    rewrite rng_uniform_returns. simpl. eauto 10.
  - unfold gibbs_step_for_v, RBM_gibbs_step_for_v. simpl.
    unfold bind at 1. rewrite rng_uniform_returns.
    unfold bind at 1. unfold lift_res at 1.
    unfold bind at 1. unfold GaussianBinaryRBM_sample_visibles.
    destruct mean_vis.
    + simpl. eauto 10.
    + unfold bind. rewrite rng_normal_returns. simpl. eauto 10.
  - unfold gibbs_step_for_v, mu_pooled_ssRBM_gibbs_step_for_v. simpl.
    unfold bind. rewrite rng_uniform_returns.
    rewrite rng_normal_returns. rewrite rng_normal_returns.
    simpl. eauto 10.
Qed.

Lemma gibbs_loop_chain (self : PersistentCDSampler) (n : nat) :
  forall (p : matrix) (loc : option gibbs_locals) (s : stream),
  exists q s1 sample l s2,
    spec_chain (rbm self) (particles_clip self) n p s = (Ok q, s1) /\
    gibbs_step_for_v (rbm self) q s1 = (Ok (sample, l), s2) /\
    h_mean l = mean_h_given_v (rbm self) q /\
    spec_chain (rbm self) (particles_clip self) (S n) p s =
      (Ok (clamp (particles_clip self) sample), s2) /\
    gibbs_loop self (S n) p loc s =
      (Ok (clamp (particles_clip self) sample, Some l), s2).
Proof.
  induction n as [|n IH]; intros p loc s.
  - destruct (gibbs_step_for_v_returns (rbm self) p s)
      as (sample & l & s' & Hg & Hm & _).
    exists p, s, sample, l, s'. repeat split; try assumption.
    + simpl. unfold bind, spec_chain_step, bind. rewrite Hg. reflexivity.
    + simpl. unfold bind. rewrite Hg. unfold clamp.
      destruct (particles_clip self) as [[lo hi]|]; reflexivity.
  - destruct (gibbs_step_for_v_returns (rbm self) p s)
      as (sample & l & s' & Hg & _ & _).
    destruct (IH (clamp (particles_clip self) sample) (Some l) s')
      as (q & s1 & sample' & l' & s2 & Hq & Hg' & Hm & Hc & Hl).
    exists q, s1, sample', l', s2. repeat split; try assumption.
    + change (spec_chain (rbm self) (particles_clip self) (S n) p s)
        with (bind (spec_chain_step (rbm self) (particles_clip self) p)
                (spec_chain (rbm self) (particles_clip self) n) s).
      unfold bind at 1. unfold spec_chain_step, bind at 1. rewrite Hg.
      exact Hq.
    + change (spec_chain (rbm self) (particles_clip self) (S (S n)) p s)
        with (bind (spec_chain_step (rbm self) (particles_clip self) p)
                (spec_chain (rbm self) (particles_clip self) (S n)) s).
      unfold bind at 1. unfold spec_chain_step, bind at 1. rewrite Hg.
      exact Hc.
    + change (gibbs_loop self (S (S n)) p loc s)
        with (bind (gibbs_step_for_v (rbm self) p)
                (fun x => let '(particles, _locals) := x in
                   gibbs_loop self (S n)
                     match particles_clip self with
                     | Some (p_min, p_max) => clip particles p_min p_max
                     | None => particles
                     end (Some _locals)) s).
      unfold bind at 1. rewrite Hg.
      replace (match particles_clip self with
               | Some (p_min, p_max) => clip sample p_min p_max
               | None => sample
               end) with (clamp (particles_clip self) sample).
      * exact Hl.
      * unfold clamp. destruct (particles_clip self) as [[lo hi]|]; reflexivity.
Qed.

Lemma updates_returns (self : PersistentCDSampler) (w : world) :
  (1 <= steps self)%Z ->
  exists q s1 sample l s2,
    spec_chain (rbm self) (particles_clip self) (Z.to_nat (steps self) - 1)
      (get_value (particles self)) (s_rng self) = (Ok q, s1) /\
    gibbs_step_for_v (rbm self) q s1 = (Ok (sample, l), s2) /\
    h_mean l = mean_h_given_v (rbm self) q /\
    spec_chain (rbm self) (particles_clip self) (Z.to_nat (steps self))
      (get_value (particles self)) (s_rng self) =
      (Ok (clamp (particles_clip self) sample), s2) /\
    updates self w =
      (Ok (<[sv_id (h_sample_var self w) := Mat (h_mean l)]>
             {[sv_id (particles self) :=
                 Mat (clamp (particles_clip self) sample)]},
           advanced self s2),
       world_after self w).
Proof.
  intros Hsteps.
  destruct (Z.to_nat (steps self)) as [|n] eqn:Hn; [lia|].
  destruct (gibbs_loop_chain self n (get_value (particles self)) None
              (s_rng self))
    as (q & s1 & sample & l & s2 & Hq & Hg & Hm & Hc & Hl).
  exists q, s1, sample, l, s2.
  replace (S n - 1)%nat with n by lia.
  repeat split; try assumption.
  unfold updates. rewrite Hn.
  unfold bind at 1. unfold with_stream. rewrite Hl.
  unfold world_after, h_sample_var.
  unfold bind at 1. unfold get_h_sample at 1.
  destruct (h_sample_attr w !! object_id (rbm self)) as [x|] eqn:Hx.
  - reflexivity.
  - reflexivity.
Qed.

(** ** The clip range *)

Lemma clip_scalar_bounds (lo hi x : Q) :
  (lo <= hi)%Q -> (lo <= clip_scalar lo hi x <= hi)%Q.
Proof.
  intros Hle. unfold clip_scalar.
  destruct (Qlt_le_dec x lo) as [Hlt|Hge].
  - split; [apply Qle_refl | exact Hle].
  - destruct (Qlt_le_dec hi x) as [Hgt|Hle'].
    + split; [exact Hle | apply Qle_refl].
    + split; assumption.
Qed.

Lemma all_entries_clip (lo hi : Q) (a : matrix) :
  (lo <= hi)%Q -> all_entries (fun x => (lo <= x <= hi)%Q) (clip a lo hi).
Proof.
  intros Hle. unfold clip, map_matrix. apply all_entries_tabulate.
  intros i j _ _. now apply clip_scalar_bounds.
Qed.

Lemma spec_chain_clipped (m : model) (lo hi : Q) (k : nat) p s :
  (lo <= hi)%Q -> (1 <= k)%nat ->
  exists q s',
    spec_chain m (Some (lo, hi)) k p s = (Ok q, s') /\
    all_entries (fun x => (lo <= x <= hi)%Q) q.
Proof.
  intros Hle Hk. destruct k as [|n]; [lia|].
  set (self := {| rbm := m; s_rng := s; particles := Shared 1%positive "" p;
                  steps := 1; particles_clip := Some (lo, hi) |}).
  destruct (gibbs_loop_chain self n p None s)
    as (q & s1 & sample & l & s2 & _ & _ & _ & Hc & _).
  simpl in Hc. exists (clip sample lo hi), s2. split; [exact Hc|].
  now apply all_entries_clip.
Qed.

Lemma lookup_particles_update (self : PersistentCDSampler) (w : world) x y :
  particles_apart self w ->
  (<[sv_id (h_sample_var self w) := x]>
     ({[sv_id (particles self) := y]} : update_set))
    !! sv_id (particles self) = Some y.
Proof.
  intros [Hlt Hne].
  rewrite lookup_insert_ne; [apply lookup_singleton_eq|].
  unfold h_sample_var.
  destruct (h_sample_attr w !! object_id (rbm self)) as [hv|] eqn:Hx.
  - now apply Hne.
  - simpl. lia.
Qed.






(** C5: a sampler can be constructed with any number of [steps]; when
    [steps] is zero or negative every call of [updates] on it raises, the
    first one included, since the loop binds [_locals] in no iteration and
    the update set refers to it; when [steps >= 1] the call returns. *)
Theorem C5_no_gibbs_step_raises
  (m : model) (particles0 : matrix) (rng : rng_arg) (k : Z)
  (range : option (Q * Q)) (w : world) :
  exists self rng' w',
    new_PersistentCDSampler m particles0 rng k range w = (Ok (self, rng'), w') /\
    steps self = k /\
    forall w1,
      ((k <= 0)%Z ->
       exists w2,
         updates self w1 = (Raise (UnboundLocalError "_locals"), w2)) /\
      ((1 <= k)%Z -> exists r w2, updates self w1 = (Ok r, w2)).
Proof.
  unfold new_PersistentCDSampler.
  destruct (randint (2 ^ 30) _) as [seed st'].
  eexists. eexists. eexists. split; [reflexivity|]. split; [reflexivity|].
  intros w1. split.
  - intros Hk. unfold updates. simpl steps.
    replace (Z.to_nat k) with 0%nat by lia. simpl.
    unfold bind at 1. unfold with_stream, ret.
    unfold bind at 1. unfold get_h_sample.
    destruct (h_sample_attr w1 !! object_id m); eexists; reflexivity.
  - intros Hk.
    match goal with
    | |- exists r w2, updates ?self0 w1 = _ =>
        destruct (updates_returns self0 w1 Hk)
          as (q & s1 & sample & l & s2 & _ & _ & _ & _ & Hu)
    end.
    eexists. eexists. exact Hu.
Qed.

(** ** The attribute [h_sample] *)

Lemma advanced_advanced self s s' : advanced (advanced self s) s' = advanced self s'.
Proof. reflexivity. Qed.

Lemma h_sample_attr_world_after self w :
  h_sample_attr (world_after self w) !! object_id (rbm self) =
  Some (h_sample_var self w).
Proof.
  unfold world_after, h_sample_var.
  destruct (h_sample_attr w !! object_id (rbm self)) as [x|] eqn:Hx.
  - exact Hx.
  - simpl. apply lookup_insert_eq.
Qed.

Lemma h_sample_var_world_after self s w :
  h_sample_var (advanced self s) (world_after self w) = h_sample_var self w.
Proof.
  unfold h_sample_var at 1. simpl rbm.
  now rewrite h_sample_attr_world_after.
Qed.

Lemma world_after_world_after self s w :
  world_after (advanced self s) (world_after self w) = world_after self w.
Proof.
  unfold world_after at 1. simpl rbm.
  now rewrite h_sample_attr_world_after.
Qed.

(** After one call and more, the sampler differs from the first one by its
    stream only, and the world is the one that the first call has left. *)
Lemma calls_returns (n : nat) :
  forall (self : PersistentCDSampler) (w : world),
    (1 <= steps self)%Z ->
    exists s,
      calls (S n) self w = (Ok (advanced self s), world_after self w).
Proof.
  induction n as [|n IH]; intros self w Hsteps.
  - destruct (updates_returns self w Hsteps)
      as (q & s1 & sample & l & s2 & _ & _ & _ & _ & Hu).
    exists s2. simpl. unfold bind. rewrite Hu. reflexivity.
  - destruct (updates_returns self w Hsteps)
      as (q & s1 & sample & l & s2 & _ & _ & _ & _ & Hu).
    destruct (IH (advanced self s2) (world_after self w) Hsteps) as [s Hs].
    exists s.
    change (calls (S (S n)) self w)
      with (bind (updates self)
              (fun x => let '(_, self') := x in calls (S n) self') w).
    unfold bind at 1. rewrite Hu. rewrite Hs.
    now rewrite advanced_advanced, world_after_world_after.
Qed.

Lemma dom_two_updates (k1 k2 : positive) (x y : ndarray) :
  dom (<[k2 := y]> ({[k1 := x]} : update_set)) = ({[k1; k2]} : gset positive).
Proof. rewrite dom_insert_L, dom_singleton_L. apply union_comm_L. Qed.

(** Whatever it returns, [updates] leaves the world with the attribute
    [h_sample] on the model. *)
Lemma updates_world (self : PersistentCDSampler) (w : world) :
  snd (updates self w) = world_after self w.
Proof.
  destruct (Z_le_gt_dec 1 (steps self)) as [Hsteps|Hsteps].
  - destruct (updates_returns self w Hsteps)
      as (q & s1 & sample & l & s2 & _ & _ & _ & _ & Hu).
    now rewrite Hu.
  - unfold updates. replace (Z.to_nat (steps self)) with 0%nat by lia.
    simpl. unfold bind at 1. unfold with_stream, ret.
    unfold bind at 1. unfold get_h_sample.
    unfold world_after, h_sample_var.
    now destruct (h_sample_attr w !! object_id (rbm self)).
Qed.

(** C10: for a model without the attribute [h_sample], the first call of
    [updates] attaches to the model a new shared variable named [h_sample]
    that holds a 0x0 array of zeros; with [steps >= 1], this call and every
    later one returns an update set with exactly two keys, the particles of
    the sampler and that variable, and gives to the latter the [h_mean] of
    the last Gibbs step of the call: the mean of the hidden units given the
    input of that step. *)
Theorem C10_updates_attaches_h_sample
  (self : PersistentCDSampler) (w : world) :
  h_sample_attr w !! object_id (rbm self) = None ->
  (sv_id (particles self) < next_id w)%positive ->
  let attached := Shared (next_id w) "h_sample" (zeros2 0 0) in
  (mshape (get_value attached) = (0, 0)%nat /\
   mrows (get_value attached) = []) /\
  (exists r w',
     updates self w = (r, w') /\
     h_sample_attr w' =
       <[object_id (rbm self) := attached]> (h_sample_attr w)) /\
  ((1 <= steps self)%Z ->
   forall n : nat,
   exists self_n w_n,
     calls n self w = (Ok self_n, w_n) /\
     (n = 0%nat -> self_n = self /\ w_n = w) /\
     exists q s1 sample l s2 upd w',
       spec_chain (rbm self) (particles_clip self)
         (Z.to_nat (steps self) - 1) (get_value (particles self))
         (s_rng self_n) = (Ok q, s1) /\
       gibbs_step_for_v (rbm self) q s1 = (Ok (sample, l), s2) /\
       h_mean l = mean_h_given_v (rbm self) q /\
       updates self_n w_n = (Ok (upd, advanced self s2), w') /\
       h_sample_attr w' =
         <[object_id (rbm self) := attached]> (h_sample_attr w) /\
       dom upd = {[sv_id (particles self); sv_id attached]} /\
       sv_id (particles self) <> sv_id attached /\
       upd !! sv_id (particles self) =
         Some (Mat (clamp (particles_clip self) sample)) /\
       upd !! sv_id attached = Some (Mat (h_mean l))).
Proof.
  intros Hnone Hlt attached.
  assert (Hvar : h_sample_var self w = attached)
    by (unfold h_sample_var; now rewrite Hnone).
  assert (Hafter : h_sample_attr (world_after self w) =
                   <[object_id (rbm self) := attached]> (h_sample_attr w))
    by (unfold world_after; rewrite Hnone; simpl; now rewrite Hvar).
  assert (Hne : sv_id (particles self) <> sv_id attached)
    by (simpl; lia).
  split; [split; reflexivity|]. split.
  { exists (fst (updates self w)), (snd (updates self w)).
    split; [now destruct (updates self w)|].
    now rewrite updates_world. }
  intros Hsteps n.
  destruct n as [|n].
  - exists self, w. split; [reflexivity|]. split; [tauto|].
    destruct (updates_returns self w Hsteps)
      as (q & s1 & sample & l & s2 & Hq & Hg & Hm & _ & Hu).
    rewrite Hvar in Hu.
    exists q, s1, sample, l, s2. eexists. eexists.
    split; [exact Hq|]. split; [exact Hg|]. split; [exact Hm|].
    split; [exact Hu|]. split; [exact Hafter|].
    split; [apply dom_two_updates|]. split; [exact Hne|].
    split.
    + rewrite lookup_insert_ne by (intros E; apply Hne; symmetry; exact E).
      apply lookup_singleton_eq.
    + apply lookup_insert_eq.
  - destruct (calls_returns n self w Hsteps) as [s Hs].
    exists (advanced self s), (world_after self w).
    split; [exact Hs|]. split; [discriminate|].
    destruct (updates_returns (advanced self s) (world_after self w) Hsteps)
      as (q & s1 & sample & l & s2 & Hq & Hg & Hm & _ & Hu).
    rewrite h_sample_var_world_after, world_after_world_after, Hvar in Hu.
    simpl in Hq, Hg, Hm, Hu.
    exists q, s1, sample, l, s2. eexists. eexists.
    split; [exact Hq|]. split; [exact Hg|]. split; [exact Hm|].
    split; [exact Hu|]. split; [exact Hafter|].
    split; [apply dom_two_updates|]. split; [exact Hne|].
    split.
    + rewrite lookup_insert_ne by (intros E; apply Hne; symmetry; exact E).
      apply lookup_singleton_eq.
    + apply lookup_insert_eq.
Qed.

(** ** Training updates *)

Lemma length_elemwise_vv op u v : length (elemwise_vv op u v) = length u.
Proof. apply length_vtabulate. Qed.

Lemma length_sum_axis1 a : length (sum_axis1 a) = nrow a.
Proof. apply length_vtabulate. Qed.

Lemma length_dot_mv a v : length (dot_mv a v) = nrow a.
Proof. apply length_vtabulate. Qed.

(** One free energy for each example of the minibatch. *)
Lemma length_free_energy_given_v (m : model) (v : matrix) :
  length (free_energy_given_v m v) = nrow v.
Proof.
  destruct m as [self a | self a sigma mean_vis | self a]; simpl.
  - unfold RBM_free_energy_given_v.
    now rewrite length_map, length_elemwise_vv, length_dot_mv.
  - unfold GaussianBinaryRBM_free_energy_given_v.
    now rewrite length_elemwise_vv, length_sum_axis1.
  - unfold mu_pooled_ssRBM_free_energy_given_v.
    now rewrite length_elemwise_vv, length_map, length_sum_axis1.
Qed.

Lemma mean_free_energy (m : model) (v : matrix) :
  mean (free_energy_given_v m v) =
  spec_mean (nrow v) (item (free_energy_given_v m v)).
Proof. unfold mean, spec_mean. now rewrite length_free_energy_given_v. Qed.

(** C1: [training_updates] hands to the optimizer the gradients, with
    respect to the parameters of the model, of the contrastive-divergence
    objective [mean(free_energy(positive)) - mean(free_energy(negative))],
    where the positive phase is the given minibatch and the negative phase
    is the value that the particles of the sampler hold when the call is
    made, both declared constant to the differentiation; the update set of
    the optimizer is then merged with the one of the sampler. *)
Theorem C1_contrastive_divergence_objective
  (visible_batch : matrix) (m : model) (sampler : PersistentCDSampler)
  (optimizer : Optimizer) (w : world) :
  let positive := visible_batch in
  let negative := get_value (particles sampler) in
  exists ml_cost : model -> Q,
    (forall m', ml_cost m' = spec_cd_objective positive negative m') /\
    ml_gradients m positive negative =
      tensor_grad ml_cost m (params m) [positive; negative] /\
    training_updates visible_batch m sampler optimizer w =
      bind (updates sampler)
        (fun r =>
           bind (lift_res
                   (safe_update
                      (optimizer_updates optimizer
                         (tensor_grad ml_cost m (params m)
                            [positive; negative]))
                      (fst r)))
             (fun ups => ret (ups, snd r))) w.
Proof.
  intros positive negative.
  exists (fun self : model =>
            (mean (free_energy_given_v self positive) -
             mean (free_energy_given_v self negative))%Q).
  split; [|split].
  - intros m'. unfold spec_cd_objective. now rewrite !mean_free_energy.
  - reflexivity.
  - unfold training_updates, ml_gradients, bind.
    destruct (updates sampler w) as [[[su sampler']|e] w']; reflexivity.
Qed.

Lemma safe_update_disjoint (dict_to dict_from : update_set) :
  dom dict_to ## dom dict_from ->
  safe_update dict_to dict_from = Ok (dict_to ∪ dict_from).
Proof.
  intros Hd. unfold safe_update.
  replace (dom dict_to ∩ dom dict_from) with (∅ : gset positive).
  - now rewrite elements_empty.
  - symmetry. apply disjoint_intersection_L. exact Hd.
Qed.

Lemma safe_update_collision (dict_to dict_from : update_set) (k : positive) :
  k ∈ dom dict_to -> k ∈ dom dict_from ->
  exists k', k' ∈ dom dict_to /\ k' ∈ dom dict_from /\
             safe_update dict_to dict_from = Raise (KeyError k').
Proof.
  intros H1' H2'. unfold safe_update.
  destruct (elements (dom dict_to ∩ dom dict_from)) as [|k' ks] eqn:He.
  - apply elements_empty_inv in He.
    assert (k ∈ dom dict_to ∩ dom dict_from) as Hk by (apply elem_of_intersection; auto).
    rewrite He in Hk. apply (not_elem_of_empty (C := gset positive)) in Hk. destruct Hk.
  - assert (k' ∈ dom dict_to ∩ dom dict_from) as Hk'.
    { apply elem_of_elements. rewrite He. apply list_elem_of_here. }
    apply elem_of_intersection in Hk'. destruct Hk' as [Ha Hb].
    exists k'. auto.
Qed.

(** C2: [training_updates] merges the update set of the optimizer with the
    one of the sampler; when a key is in both it raises, and when no key is
    in both it returns the union of the two. *)
Theorem C2_merge_raises_on_collision
  (visible_batch : matrix) (m : model) (sampler : PersistentCDSampler)
  (optimizer : Optimizer) (w : world) :
  (1 <= steps sampler)%Z ->
  let ups :=
    optimizer_updates optimizer
      (ml_gradients m visible_batch (get_value (particles sampler))) in
  exists sampler_updates sampler' w',
    updates sampler w = (Ok (sampler_updates, sampler'), w') /\
    (forall k, k ∈ dom ups -> k ∈ dom sampler_updates ->
       exists k', k' ∈ dom ups /\ k' ∈ dom sampler_updates /\
         training_updates visible_batch m sampler optimizer w =
         (Raise (KeyError k'), w')) /\
    (dom ups ## dom sampler_updates ->
       training_updates visible_batch m sampler optimizer w =
         (Ok (ups ∪ sampler_updates, sampler'), w') /\
       dom (ups ∪ sampler_updates) = dom ups ∪ dom sampler_updates /\
       forall k x,
         (ups ∪ sampler_updates) !! k = Some x <->
         ups !! k = Some x \/ sampler_updates !! k = Some x).
Proof.
  intros Hsteps ups.
  destruct (updates_returns sampler w Hsteps)
    as (q & s1 & sample & l & s2 & _ & _ & _ & _ & Hu).
  eexists. eexists. eexists. split; [exact Hu|].
  set (su := <[sv_id (h_sample_var sampler w) := Mat (h_mean l)]> _) in *.
  split.
  - intros k Hk1 Hk2.
    destruct (safe_update_collision ups su k Hk1 Hk2) as (k' & Ha & Hb & Hr).
    exists k'. split; [exact Ha|]. split; [exact Hb|].
    unfold training_updates. fold ups. unfold bind at 1. rewrite Hu.
    unfold bind, lift_res. rewrite Hr. reflexivity.
  - intros Hd. split; [|split].
    + unfold training_updates. fold ups. unfold bind at 1. rewrite Hu.
      unfold bind, lift_res. rewrite (safe_update_disjoint ups su Hd).
      reflexivity.
    + apply dom_union_L.
    + intros k x. rewrite lookup_union_Some; [tauto|].
      apply map_disjoint_dom. exact Hd.
Qed.

(** ** Entries of the results of the tensor operations *)

Lemma entry_dot a b i j :
  (i < nrow a)%nat -> (j < ncol b)%nat ->
  entry (dot a b) i j =
  sum_to (ncol a) (fun k => (entry a i k * entry b k j)%Q).
Proof. intros. unfold dot. now rewrite entry_tabulate. Qed.

Lemma entry_map_matrix f a i j :
  (i < nrow a)%nat -> (j < ncol a)%nat ->
  entry (map_matrix f a) i j = f (entry a i j).
Proof. intros. unfold map_matrix. now rewrite entry_tabulate. Qed.

Lemma entry_elemwise op a b i j :
  (i < nrow a)%nat -> (j < ncol a)%nat ->
  entry (elemwise op a b) i j = op (entry a i j) (entry b i j).
Proof. intros. unfold elemwise. now rewrite entry_tabulate. Qed.

Lemma entry_elemwise_mv op a v i j :
  (i < nrow a)%nat -> (j < ncol a)%nat ->
  entry (elemwise_mv op a v) i j = op (entry a i j) (item v j).
Proof. intros. unfold elemwise_mv. now rewrite entry_tabulate. Qed.

Lemma entry_elemwise_vm op v a i j :
  (i < nrow a)%nat -> (j < ncol a)%nat ->
  entry (elemwise_vm op v a) i j = op (item v j) (entry a i j).
Proof. intros. unfold elemwise_vm. now rewrite entry_tabulate. Qed.

Lemma item_sum_axis1 a i :
  (i < nrow a)%nat -> item (sum_axis1 a) i = sum_to (ncol a) (entry a i).
Proof. intros. unfold sum_axis1. now rewrite item_vtabulate. Qed.

Lemma item_map (f : Q -> Q) (v : vector) i :
  (i < length v)%nat -> item (map f v) i = f (item v i).
Proof.
  intros Hi. unfold item.
  rewrite (nth_indep _ 0%Q (f 0%Q)) by now rewrite length_map.
  apply map_nth.
Qed.

(** The shape of the result of an operation, from the shapes of its
    operands. *)
Ltac shape :=
  repeat
    match goal with
    | |- context [nrow (tabulate ?r ?c ?f)] =>
        change (nrow (tabulate r c f)) with r
    | |- context [ncol (tabulate ?r ?c ?f)] =>
        change (ncol (tabulate r c f)) with c
    | |- context [nrow (dot ?x ?y)] => change (nrow (dot x y)) with (nrow x)
    | |- context [ncol (dot ?x ?y)] => change (ncol (dot x y)) with (ncol y)
    | |- context [nrow (map_matrix ?f ?x)] =>
        change (nrow (map_matrix f x)) with (nrow x)
    | |- context [ncol (map_matrix ?f ?x)] =>
        change (ncol (map_matrix f x)) with (ncol x)
    | |- context [nrow (elemwise ?op ?x ?y)] =>
        change (nrow (elemwise op x y)) with (nrow x)
    | |- context [ncol (elemwise ?op ?x ?y)] =>
        change (ncol (elemwise op x y)) with (ncol x)
    | |- context [nrow (elemwise_mv ?op ?x ?y)] =>
        change (nrow (elemwise_mv op x y)) with (nrow x)
    | |- context [ncol (elemwise_mv ?op ?x ?y)] =>
        change (ncol (elemwise_mv op x y)) with (ncol x)
    | |- context [nrow (elemwise_vm ?op ?x ?y)] =>
        change (nrow (elemwise_vm op x y)) with (nrow y)
    | |- context [ncol (elemwise_vm ?op ?x ?y)] =>
        change (ncol (elemwise_vm op x y)) with (ncol y)
    end.

Ltac in_range := shape; lia.

(** ** The Gaussian-binary formulas *)

Lemma Gaussian_input_to_h self a sigma mean_vis v :
  wf_RBM_attrs a -> ncol v = nvis a ->
  input_to_h_from_v (GaussianBinaryRBM self a sigma mean_vis) v =
  tabulate (nrow v) (nhid a) (spec_Gaussian_input_to_h a (get_value sigma) v).
Proof.
  intros (_ & _ & HW & _) Hv. simpl.
  unfold GaussianBinaryRBM_input_to_h_from_v.
  assert (HcW : ncol (get_value (weights a)) = nhid a)
    by (unfold ncol; now rewrite HW).
  unfold elemwise_vm at 1. shape. rewrite HcW.
  apply tabulate_ext. intros i j Hi Hj.
  unfold spec_Gaussian_input_to_h. f_equal.
  rewrite entry_dot by in_range. shape. rewrite Hv.
  apply sum_to_ext. intros k Hk.
  now rewrite entry_elemwise_mv by lia.
Qed.

(** C7: the Gaussian-binary [input_to_h_from_v] is [hidbias + (v/sigma).W],
    each visible unit divided by its [sigma] before the product with the
    weights, and the free energy of an example is the sum over the visible
    units of [(visible_bias - v)^2 / sigma] minus the sum over the hidden
    units of the softplus of [input_to_h_from_v(v)]. *)
Theorem C7_Gaussian_binary_free_energy
  (self : positive) (a : RBM_attrs) (sigma : shared vector) (mean_vis : bool)
  (v : matrix) :
  wf_RBM_attrs a -> ncol v = nvis a ->
  let m := GaussianBinaryRBM self a sigma mean_vis in
  input_to_h_from_v m v =
    tabulate (nrow v) (nhid a)
      (spec_Gaussian_input_to_h a (get_value sigma) v) /\
  free_energy_given_v m v =
    vtabulate (nrow v) (spec_Gaussian_free_energy a (get_value sigma) v).
Proof.
  intros Hwf Hv m. split; [now apply Gaussian_input_to_h|].
  unfold m. simpl. unfold GaussianBinaryRBM_free_energy_given_v.
  rewrite (Gaussian_input_to_h self a sigma mean_vis v Hwf Hv).
  unfold elemwise_vv. rewrite length_sum_axis1. shape.
  apply vtabulate_ext. intros i Hi.
  unfold spec_Gaussian_free_energy.
  rewrite !item_sum_axis1 by in_range. shape. rewrite Hv.
  f_equal.
  - apply sum_to_ext. intros k Hk.
    rewrite entry_elemwise_mv by in_range.
    rewrite entry_map_matrix by in_range.
    now rewrite entry_elemwise_vm by lia.
  - apply sum_to_ext. intros j Hj.
    rewrite entry_map_matrix by in_range.
    now rewrite entry_tabulate by lia.
Qed.

(** ** The formulas of the pooled spike-and-slab model *)

Lemma Qopp_half (x : Q) : (- ((1 # 2) * x) = (-1 # 2) * x)%Q.
Proof.
  destruct x as [n d]. unfold Qopp, Qmult. simpl. f_equal.
  now destruct n.
Qed.

Lemma flat_row_major (x : matrix) (i r : nat) :
  (r < ncol x)%nat -> flat x (i * ncol x + r) = entry x i r.
Proof.
  intros Hr. unfold flat. f_equal.
  - symmetry. apply (Nat.div_unique _ _ i r); lia.
  - symmetry. apply (Nat.mod_unique _ _ i r); lia.
Qed.

(** [sum_s] pools the slab units of each hidden unit. *)
Lemma entry_sum_s (a : ssRBM_attrs) (x : matrix) (i j : nat) :
  (0 < n_s_per_h a)%nat ->
  ncol x = (ss_nhid a * n_s_per_h a)%nat ->
  (i < nrow x)%nat -> (j < ss_nhid a)%nat ->
  entry (sum_s a x) i j = spec_pool (n_s_per_h a) (entry x i) j.
Proof.
  intros Hn Hc Hi Hj. unfold sum_s, sum_axis2, reshape3. simpl t3shape. cbv iota beta.
  assert (Hpos : (ss_nhid a * n_s_per_h a <> 0)%nat) by nia.
  rewrite entry_tabulate; [| rewrite Hc, Nat.div_mul by exact Hpos; exact Hi | exact Hj].
  unfold spec_pool. apply sum_to_ext. intros t Ht.
  rewrite entry3_tabulate3;
    [| rewrite Hc, Nat.div_mul by exact Hpos; exact Hi | exact Hj | exact Ht].
  rewrite <- Hc. rewrite <- Nat.add_assoc. apply flat_row_major. nia.
Qed.

Lemma sum_s_shape (a : ssRBM_attrs) (x : matrix) :
  (0 < ss_nhid a)%nat -> (0 < n_s_per_h a)%nat ->
  ncol x = (ss_nhid a * n_s_per_h a)%nat ->
  mshape (sum_s a x) = (nrow x, ss_nhid a).
Proof.
  intros Hh Hn Hc. unfold sum_s, sum_axis2, reshape3. simpl.
  rewrite Hc, Nat.div_mul by nia. reflexivity.
Qed.

Lemma item_alpha (a : ssRBM_attrs) (s : nat) :
  (s < length (get_value (log_alpha a)))%nat ->
  item (alpha a) s = exp (item (get_value (log_alpha a)) s).
Proof. intros Hs. unfold alpha. now apply item_map. Qed.

Lemma ssRBM_vW (a : ssRBM_attrs) (v : matrix) (i s : nat) :
  mshape (get_value (W a)) = (ss_nvis a, ss_nslab a) ->
  ncol v = ss_nvis a ->
  (i < nrow v)%nat -> (s < ss_nslab a)%nat ->
  entry (dot v (get_value (W a))) i s = spec_vW a v i s.
Proof.
  intros HW Hv Hi Hs. rewrite entry_dot; [now rewrite Hv | exact Hi |].
  unfold ncol. now rewrite HW.
Qed.

Lemma ssRBM_input_to_h self a v :
  wf_ssRBM_attrs a -> ncol v = ss_nvis a ->
  input_to_h_from_v (mu_pooled_ssRBM self a) v =
  tabulate (nrow v) (ss_nhid a) (spec_ssRBM_input_to_h a v).
Proof.
  intros (Hn & Hslab & Hla & Hmu & Hb & HW & HB & HL) Hv. simpl.
  unfold mu_pooled_ssRBM_input_to_h_from_v.
  assert (HcW : ncol (get_value (W a)) = (ss_nhid a * n_s_per_h a)%nat)
    by (unfold ncol; now rewrite HW).
  assert (HcL : ncol (get_value (Lambda a)) = ss_nhid a)
    by (unfold ncol; now rewrite HL).
  unfold elemwise at 1. shape. rewrite HcL.
  apply tabulate_ext. intros i j Hi Hj.
  assert (Hslot : forall t, (t < n_s_per_h a)%nat ->
                            (j * n_s_per_h a + t < ss_nslab a)%nat)
    by (intros t Ht; rewrite Hslab; nia).
  rewrite entry_elemwise by in_range.
  rewrite entry_elemwise_vm by in_range.
  rewrite entry_map_matrix by in_range.
  rewrite entry_dot by in_range. shape. rewrite Hv.
  rewrite !entry_sum_s by (try exact Hn; try exact Hj; shape; lia).
  unfold spec_ssRBM_input_to_h, Qminus. f_equal; [f_equal; [f_equal|]|].
  - rewrite Qopp_half. f_equal.
    apply sum_to_ext. intros k Hk.
    now rewrite entry_elemwise by lia.
  - unfold spec_pool. apply sum_to_ext. intros t Ht.
    rewrite entry_elemwise_vm by (shape; rewrite ?HcW, <- ?Hslab; auto).
    now rewrite ssRBM_vW by auto.
  - unfold spec_pool. apply sum_to_ext. intros t Ht.
    rewrite entry_elemwise_mv by (shape; rewrite ?HcW, <- ?Hslab; auto).
    rewrite !entry_map_matrix by (shape; rewrite ?HcW, <- ?Hslab; auto).
    rewrite ssRBM_vW by auto.
    rewrite item_alpha by (rewrite Hla; auto).
    reflexivity.
Qed.

(** C8: the pooled spike-and-slab [input_to_h_from_v] is
    [b - 1/2 (v^2.Lambda) + pool(mu * (v.W)) + pool(1/2 (v.W)^2 / alpha)],
    where [pool] sums the [n_s_per_h] consecutive slab entries of each
    hidden unit, and the free energy of an example is half the sum over the
    visible units of [B v^2], minus the sum over the hidden units of the
    softplus of [input_to_h_from_v(v)]. *)
Theorem C8_pooled_ssRBM_free_energy
  (self : positive) (a : ssRBM_attrs) (v : matrix) :
  wf_ssRBM_attrs a -> ncol v = ss_nvis a ->
  let m := mu_pooled_ssRBM self a in
  input_to_h_from_v m v =
    tabulate (nrow v) (ss_nhid a) (spec_ssRBM_input_to_h a v) /\
  free_energy_given_v m v = vtabulate (nrow v) (spec_ssRBM_free_energy a v).
Proof.
  intros Hwf Hv m. split; [now apply ssRBM_input_to_h|].
  unfold m. simpl free_energy_given_v.
  unfold mu_pooled_ssRBM_free_energy_given_v.
  rewrite (ssRBM_input_to_h self a v Hwf Hv).
  unfold elemwise_vv. rewrite length_map, length_sum_axis1. shape.
  apply vtabulate_ext. intros i Hi.
  unfold spec_ssRBM_free_energy.
  rewrite !item_map by (rewrite length_sum_axis1; in_range).
  rewrite !item_sum_axis1 by in_range. shape. rewrite Hv.
  unfold Qminus. f_equal; [f_equal|f_equal].
  - apply sum_to_ext. intros k Hk.
    rewrite entry_elemwise_vm by in_range.
    now rewrite entry_map_matrix by lia.
  - apply sum_to_ext. intros j Hj.
    rewrite entry_map_matrix by in_range.
    now rewrite entry_tabulate by lia.
Qed.

(** ** Construction *)

(** [RBM(...)] with a generator, or with [None], returns a model of the
    sizes asked for, with parameters of the shapes of [wf_RBM_attrs]. *)
Lemma new_RBM_returns (nv nh bs : nat) (irange : Q) (rng : rng_arg) (w : world) :
  is_rng_int rng = false ->
  exists a rng' w',
    new_RBM nv nh bs irange rng w = (Ok (RBM (next_id w) a, rng'), w') /\
    nvis a = nv /\ nhid a = nh /\ batch_size a = bs /\
    wf_RBM_attrs a /\ is_rng_int rng' = false.
Proof.
  intros Hrng. unfold new_RBM, RBM__init__.
  destruct rng as [|seed|st]; [|discriminate|].
  - unfold bind, fresh_id, sharedX, bind, fresh_id, ret, rand. simpl.
    destruct (draw_matrix random_sample (nv, nh) (RandomState_of_seed 1001))
      as [x st'] eqn:Hx.
    pose proof (draw_matrix_shape random_sample (nv, nh)
                  (RandomState_of_seed 1001)) as Hs.
    rewrite Hx in Hs. simpl in Hs. simpl.
    eexists. eexists. eexists. split; [reflexivity|]. simpl.
    repeat split; try apply length_vtabulate.
    + unfold map_matrix, nrow, ncol. now rewrite Hs.
    + unfold map_matrix, tabulate. simpl. now rewrite length_map, length_seq.
    + apply wf_tabulate.
  - unfold bind, fresh_id, sharedX, bind, fresh_id, ret, rand. simpl.
    destruct (draw_matrix random_sample (nv, nh) st) as [x st'] eqn:Hx.
    pose proof (draw_matrix_shape random_sample (nv, nh) st) as Hs.
    rewrite Hx in Hs. simpl in Hs. simpl.
    eexists. eexists. eexists. split; [reflexivity|]. simpl.
    repeat split; try apply length_vtabulate.
    + unfold map_matrix, nrow, ncol. now rewrite Hs.
    + unfold map_matrix, tabulate. simpl. now rewrite length_map, length_seq.
    + apply wf_tabulate.
Qed.

(** For binary visible units, every layer is made by [RBM(nvis - nvis, ...)]. *)
Lemma build_layers_binary (bs : nat) (irange : Q) :
  forall (seq : list (nat * nat * nat)) (rng : rng_arg) (acc : list model)
         (w : world),
    is_rng_int rng = false ->
    exists new rng' w',
      build_layers seq bs "binary" None irange rng acc w =
        (Ok (acc ++ new, rng'), w') /\
      map model_nvis new = map (fun _ => 0%nat) seq /\
      map model_nhid new = map (fun x => snd (fst x)) seq.
Proof.
  induction seq as [|[[k nh] nv] seq IH]; intros rng acc w Hrng.
  - exists [], rng, w. simpl. now rewrite app_nil_r.
  - simpl build_layers.
    replace ((k =? 0)%nat && false) with false by now destruct (k =? 0)%nat.
    destruct (new_RBM_returns (nv - nv) nh bs irange rng w Hrng)
      as (a & rng1 & w1 & Hnew & Hnv & Hnh & _ & _ & Hrng1).
    unfold bind at 1. rewrite Hnew.
    destruct (IH rng1 (acc ++ [RBM (next_id w) a]) w1 Hrng1)
      as (new & rng2 & w2 & Hb & Hvis & Hhid).
    exists (RBM (next_id w) a :: new), rng2, w2.
    rewrite Hb, <- app_assoc. simpl.
    rewrite Hvis, Hhid, Hnv, Hnh, Nat.sub_diag. auto.
Qed.

Lemma izip3_middle {A1 A2 A3} (l1 : list A1) (l2 : list A2) (l3 : list A3) :
  (length l2 <= length l1)%nat -> (length l2 <= length l3)%nat ->
  map (fun x => snd (fst x)) (izip3 l1 l2 l3) = l2.
Proof.
  revert l1 l3. induction l2 as [|y l2 IH]; intros l1 l3 H1' H3'.
  - destruct l1, l3; reflexivity.
  - destruct l1 as [|x l1]; [simpl in H1'; lia|].
    destruct l3 as [|z l3]; [simpl in H3'; lia|].
    simpl. f_equal. apply IH; simpl in *; lia.
Qed.

(** What [build_stacked_RBM] builds for binary visible units: one layer for
    each hidden size, with that many hidden units and no visible unit. *)
Lemma build_stacked_RBM_binary
  (nv : nat) (nhids : list nat) (bs : nat) (irange : Q) (rng : rng_arg)
  (w : world) :
  is_rng_int rng = false ->
  exists sb rng' w',
    build_stacked_RBM nv nhids bs "binary" None irange rng w =
      (Ok (sb, rng'), w') /\
    map model_nhid (layers sb) = nhids /\
    map model_nvis (layers sb) = map (fun _ => 0%nat) nhids.
Proof.
  intros Hrng. unfold build_stacked_RBM.
  change (String.eqb "binary" "binary") with true.
  change (String.eqb "binary" "gaussian") with false.
  cbn [negb orb]. unfold bind at 1. unfold ret at 1.
  set (seq := izip3 _ _ _).
  assert (Hlen : (length nhids <= length (nv :: removelast nhids))%nat).
  { rewrite removelast_firstn_len, length_cons, length_firstn. lia. }
  assert (Hmid : map (fun x => snd (fst x)) seq = nhids).
  { apply izip3_middle; [now rewrite length_seq | exact Hlen]. }
  destruct (build_layers_binary bs irange seq rng [] w Hrng)
    as (new & rng' & w' & Hb & Hvis & Hhid).
  unfold bind. rewrite Hb. simpl.
  exists {| layers := new |}, rng', w'. split; [reflexivity|]. simpl.
  split; [now rewrite Hhid|].
  rewrite Hvis. rewrite <- Hmid at 1. now rewrite map_map.
Qed.

(** C9: for the input size 3 and the hidden sizes 2 and 4,
    [build_stacked_RBM] builds two layers which have 0 visible units each,
    where the chained sizing asks for 3 and 2. *)
Theorem C9_stacked_layers_have_no_visible_unit (irange : Q) (w : world) :
  exists sb rng' w',
    build_stacked_RBM 3 [2; 4]%nat 10 "binary" None irange rng_None w =
      (Ok (sb, rng'), w') /\
    map model_nhid (layers sb) = [2; 4]%nat /\
    map model_nvis (layers sb) = [0; 0]%nat.
Proof. now apply build_stacked_RBM_binary. Qed.

(** C6: on the pooled spike-and-slab model, [mean_v_given_h] and
    [sample_visibles] raise [NotImplementedError] with a message that names
    the class and the method, for every argument, and return nothing. *)
Theorem C6_pooled_ssRBM_not_implemented
  (self : positive) (a : ssRBM_attrs) (h : matrix) (params : list matrix)
  (shape : nat * nat) (s : stream) :
  mean_v_given_h (mu_pooled_ssRBM self a) h =
    Raise (NotImplementedError "mu_pooled_ssRBM.mean_v_given_h") /\
  sample_visibles (mu_pooled_ssRBM self a) params shape s =
    (Raise (NotImplementedError "mu_pooled_ssRBM.sample_visibles"), s).
Proof. split; reflexivity. Qed.

(** For Gaussian visible units, [build_stacked_RBM] raises on its
    assertion about [input_mean_vis], whatever that argument is. *)
Lemma build_stacked_RBM_gaussian_raises
  (nv : nat) (nhids : list nat) (bs : nat) (input_mean_vis : option bool)
  (irange : Q) (rng : rng_arg) (w : world) :
  build_stacked_RBM nv nhids bs "gaussian" input_mean_vis irange rng w =
  (Raise (TypeError "argument of type 'bool' is not iterable"), w).
Proof. reflexivity. Qed.

End Properties.

(** * More of the module *)

Section MoreProperties.
Context `{Backend} `{RandomStreams} `{NumpyRandom} `{NumpyMath} `{AutoDiff}.

(** The shape of the result of an operation, from the shapes of its
    operands. *)
Ltac shape_of :=
  repeat
    match goal with
    | |- context [nrow (tabulate ?r ?c ?f)] =>
        change (nrow (tabulate r c f)) with r
    | |- context [ncol (tabulate ?r ?c ?f)] =>
        change (ncol (tabulate r c f)) with c
    | |- context [nrow (dot ?x ?y)] => change (nrow (dot x y)) with (nrow x)
    | |- context [ncol (dot ?x ?y)] => change (ncol (dot x y)) with (ncol y)
    | |- context [nrow (transpose ?x)] =>
        change (nrow (transpose x)) with (ncol x)
    | |- context [ncol (transpose ?x)] =>
        change (ncol (transpose x)) with (nrow x)
    | |- context [nrow (map_matrix ?f ?x)] =>
        change (nrow (map_matrix f x)) with (nrow x)
    | |- context [ncol (map_matrix ?f ?x)] =>
        change (ncol (map_matrix f x)) with (ncol x)
    | |- context [nrow (elemwise ?op ?x ?y)] =>
        change (nrow (elemwise op x y)) with (nrow x)
    | |- context [ncol (elemwise ?op ?x ?y)] =>
        change (ncol (elemwise op x y)) with (ncol x)
    | |- context [nrow (elemwise_mv ?op ?x ?y)] =>
        change (nrow (elemwise_mv op x y)) with (nrow x)
    | |- context [ncol (elemwise_mv ?op ?x ?y)] =>
        change (ncol (elemwise_mv op x y)) with (ncol x)
    | |- context [nrow (elemwise_vm ?op ?x ?y)] =>
        change (nrow (elemwise_vm op x y)) with (nrow y)
    | |- context [ncol (elemwise_vm ?op ?x ?y)] =>
        change (ncol (elemwise_vm op x y)) with (ncol y)
    end.

(** ** The reconstruction error *)

Lemma fold_left_Qplus_nonneg (l : list Q) (acc : Q) :
  (0 <= acc)%Q -> Forall (fun x => (0 <= x)%Q) l ->
  (0 <= fold_left Qplus l acc)%Q.
Proof.
  revert acc. induction l as [|x l IH]; intros acc Hacc Hl; simpl.
  - exact Hacc.
  - inversion Hl as [|? ? Hx Hl']; subst. apply IH; [|exact Hl'].
    rewrite <- (Qplus_0_r 0). now apply Qplus_le_compat.
Qed.

Lemma sum_to_nonneg (n : nat) (f : nat -> Q) :
  (forall i, (0 <= f i)%Q) -> (0 <= sum_to n f)%Q.
Proof.
  intros Hf. unfold sum_to. apply fold_left_Qplus_nonneg; [apply Qle_refl|].
  unfold vtabulate. apply Forall_forall. intros x Hx.
  apply list_elem_of_In, in_map_iff in Hx. destruct Hx as [i [<- _]]. apply Hf.
Qed.

Lemma item_nonneg (v : vector) (i : nat) :
  Forall (fun x => (0 <= x)%Q) v -> (0 <= item v i)%Q.
Proof.
  intros Hv. unfold item. destruct (nth_in_or_default i v 0%Q) as [Hin|Heq].
  - rewrite Forall_forall in Hv. apply Hv. now apply list_elem_of_In.
  - rewrite Heq. apply Qle_refl.
Qed.

Lemma mean_nonneg (v : vector) :
  Forall (fun x => (0 <= x)%Q) v -> (0 <= mean v)%Q.
Proof.
  intros Hv. unfold mean, Qdiv. apply Qmult_le_0_compat.
  - apply sum_to_nonneg. intros i. now apply item_nonneg.
  - apply Qinv_le_0_compat. unfold Qle. simpl. lia.
Qed.

Lemma square_nonneg (x : Q) : (0 <= x ^ 2)%Q.
Proof. destruct x as [n d]. unfold Qle. simpl. nia. Qed.

Lemma squared_error_nonneg (a : matrix) :
  Forall (fun x => (0 <= x)%Q)
    (sum_axis1 (map_matrix (fun x => (x ^ 2)%Q) a)).
Proof.
  unfold sum_axis1, vtabulate. apply Forall_forall. intros x Hx.
  apply list_elem_of_In, in_map_iff in Hx. destruct Hx as [i [<- Hi]].
  apply in_seq in Hi.
  apply fold_left_Qplus_nonneg; [apply Qle_refl|].
  unfold vtabulate. apply Forall_forall. intros y Hy.
  apply list_elem_of_In, in_map_iff in Hy. destruct Hy as [j [<- Hj]].
  apply in_seq in Hj. change (ncol (map_matrix ?f ?x)) with (ncol x) in Hj.
  change (nrow (map_matrix ?f ?x)) with (nrow x) in Hi.
  unfold map_matrix. rewrite entry_tabulate by lia. apply square_nonneg.
Qed.

(** X1: for a model with parameters of the shapes of its constructor, whose
    divisions and square roots are defined, and a minibatch of the shape of
    the model, the reconstruction error is returned, for each of the three
    classes, and is not negative. *)
Theorem X1_reconstruction_error_nonneg (self : model) (v : matrix) (s : stream) :
  model_wf self ->
  model_defined self ->
  (0 < model_batch_size self)%nat ->
  mshape v = (model_batch_size self, model_nvis self) ->
  exists e s',
    reconstruction_error self v s = (Ok e, s') /\ (0 <= e)%Q.
Proof.
  intros _ _ _ _.
  destruct (gibbs_step_for_v_returns self v s) as (sample & l & s' & Hg & _).
  unfold reconstruction_error, bind. rewrite Hg.
  eexists. eexists. split; [reflexivity|].
  apply mean_nonneg, squared_error_nonneg.
Qed.


(** The explicit result of a Gibbs step of [RBM] and [GaussianBinaryRBM]:
    the hidden units are sampled from the uniform draws, then the visible
    units are sampled by the method of the class. *)
Lemma RBM_gibbs_step_for_v_result (self : model) (v : matrix) (s : stream) :
  match self with mu_pooled_ssRBM _ _ => False | _ => True end ->
  let shape_h := (model_batch_size self, model_nhid self) in
  let u := fst (draw_matrix next_uniform shape_h s) in
  let s1 := snd (draw_matrix next_uniform shape_h s) in
  let hs := elemwise lt_cast u (mean_h_given_v self v) in
  let shape_v := (model_batch_size self, model_nvis self) in
  exists vm,
    mean_v_given_h self hs = Ok vm /\
    gibbs_step_for_v self v s =
    bind (sample_visibles self [vm] shape_v)
      (fun sample =>
         ret (sample,
              {| h_mean := mean_h_given_v self v; h_mean_shape := shape_h;
                 h_sample := hs; v_mean_shape := shape_v;
                 v_mean := vm; v_sample := sample; slab := None |})) s1.
Proof.
  intros Hclass shape_h u s1 hs shape_v.
  destruct self as [self a | self a sigma mean_vis | self a];
    [| |destruct Hclass].
  - eexists. split; [reflexivity|].
    unfold gibbs_step_for_v, RBM_gibbs_step_for_v.
    unfold bind at 1. rewrite rng_uniform_returns. reflexivity.
  - eexists. split; [reflexivity|].
    unfold gibbs_step_for_v, RBM_gibbs_step_for_v.
    unfold bind at 1. rewrite rng_uniform_returns. reflexivity.
Qed.

(** The two Gibbs steps of [GaussianBinaryRBM], with and without
    [mean_vis]. *)
Lemma Gaussian_gibbs_step_result
  (self : positive) (a : RBM_attrs) (sigma : shared vector) (v : matrix)
  (s : stream) :
  let shape_h := (batch_size a, nhid a) in
  let shape_v := (batch_size a, nvis a) in
  let u := fst (draw_matrix next_uniform shape_h s) in
  let s1 := snd (draw_matrix next_uniform shape_h s) in
  let n := fst (draw_matrix next_normal shape_v s1) in
  (exists l,
     gibbs_step_for_v (GaussianBinaryRBM self a sigma true) v s =
       (Ok (v_mean l, l), s1) /\
     v_mean l = GaussianBinaryRBM_mean_v_given_h a sigma (h_sample l) /\
     h_sample l = elemwise lt_cast u (h_mean l) /\
     h_mean l =
       map_matrix sigmoid (GaussianBinaryRBM_input_to_h_from_v a sigma v) /\
     fst (draw_vector next_uniform (batch_size a * nhid a) s) =
       concat (mrows (fst (draw_matrix next_uniform shape_h s))) /\
     snd (draw_vector next_uniform (batch_size a * nhid a) s) = s1) /\
  (exists l,
     gibbs_step_for_v (GaussianBinaryRBM self a sigma false) v s =
       (Ok (tabulate (batch_size a) (nvis a)
              (fun i k =>
                 (entry n i k * item (get_value sigma) k +
                  entry (v_mean l) i k)%Q), l),
        snd (draw_matrix next_normal shape_v s1)) /\
     v_mean l = GaussianBinaryRBM_mean_v_given_h a sigma (h_sample l) /\
     h_sample l = elemwise lt_cast u (h_mean l) /\
     h_mean l =
       map_matrix sigmoid (GaussianBinaryRBM_input_to_h_from_v a sigma v)).
Proof.
  intros shape_h shape_v u s1 n. split.
  - destruct (RBM_gibbs_step_for_v_result
                (GaussianBinaryRBM self a sigma true) v s I)
      as (vm & Hvm & Hg).
    simpl in Hvm. injection Hvm as <-.
    destruct (gibbs_step_for_v_returns
                (GaussianBinaryRBM self a sigma true) v s)
      as (sample & l & s' & Hg0 & _).
    rewrite Hg0 in Hg. unfold bind in Hg. simpl in Hg.
    injection Hg as Hsample Hl Hs.
    exists l. rewrite Hg0.
    split; [|split; [|split; [|split]]].
    + rewrite Hs. fold shape_h. fold s1. f_equal. f_equal. f_equal.
      rewrite Hl. simpl. exact Hsample.
    + rewrite Hl. reflexivity.
    + rewrite Hl. reflexivity.
    + rewrite Hl. reflexivity.
    + rewrite (draw_matrix_concat next_uniform (batch_size a) (nhid a) s).
      split; reflexivity.
  - destruct (RBM_gibbs_step_for_v_result
                (GaussianBinaryRBM self a sigma false) v s I)
      as (vm & Hvm & Hg).
    simpl in Hvm. injection Hvm as <-.
    destruct (gibbs_step_for_v_returns
                (GaussianBinaryRBM self a sigma false) v s)
      as (sample & l & s' & Hg0 & _).
    rewrite Hg0 in Hg. simpl in Hg.
    unfold GaussianBinaryRBM_sample_visibles, bind in Hg.
    rewrite rng_normal_returns in Hg. simpl in Hg.
    injection Hg as Hsample Hl Hs.
    pose proof (draw_matrix_shape next_normal shape_v s1) as Hshape.
    exists l. rewrite Hg0.
    split; [|repeat split; rewrite Hl; reflexivity].
    rewrite Hs. fold shape_h shape_v. fold s1. f_equal. f_equal. f_equal.
    rewrite Hsample. fold shape_h shape_v. fold s1. fold n.
    unfold elemwise at 1. unfold elemwise_mv at 1 2.
    unfold nrow, ncol. fold n in Hshape. rewrite Hshape. simpl fst. simpl snd.
    apply tabulate_ext. intros i k Hi Hk.
    unfold elemwise_mv. unfold nrow, ncol. rewrite Hshape. simpl fst. simpl snd.
    rewrite entry_tabulate by assumption.
    rewrite Hl. reflexivity.
Qed.

(** X2: the reconstruction error of a [GaussianBinaryRBM] is computed from
    the mean of the visible units: it is the same with and without
    [mean_vis]. *)
Theorem X2_reconstruction_error_ignores_mean_vis
  (self : positive) (a : RBM_attrs) (sigma : shared vector) (v : matrix)
  (s : stream) :
  fst (reconstruction_error (GaussianBinaryRBM self a sigma true) v s) =
  fst (reconstruction_error (GaussianBinaryRBM self a sigma false) v s).
Proof.
  destruct (Gaussian_gibbs_step_result self a sigma v s)
    as [(l1 & Hg1 & Hm1 & Hs1 & Hh1 & _) (l2 & Hg2 & Hm2 & Hs2 & Hh2)].
  unfold reconstruction_error, bind. rewrite Hg1, Hg2. simpl.
  now rewrite Hm1, Hm2, Hs1, Hs2, Hh1, Hh2.
Qed.

(** X3: on a minibatch of the shape of the model, with [mean_vis], a Gibbs
    step of [GaussianBinaryRBM] returns the
    mean of the visible units as sample and draws for the hidden units only:
    the stream is left after [batch_size * nhid] uniform draws.  Without
    [mean_vis] the sample is, entry by entry, one normal draw times the
    [sigma] of the visible unit, plus the mean. *)
Theorem X3_Gaussian_visible_sample
  (self : positive) (a : RBM_attrs) (sigma : shared vector) (v : matrix)
  (s : stream) :
  wf_RBM_attrs a ->
  length (get_value sigma) = nvis a ->
  mshape v = (batch_size a, nvis a) ->
  let s1 := snd (draw_vector next_uniform (batch_size a * nhid a) s) in
  let n := fst (draw_matrix next_normal (batch_size a, nvis a) s1) in
  (exists l,
     gibbs_step_for_v (GaussianBinaryRBM self a sigma true) v s =
       (Ok (v_mean l, l), s1)) /\
  (exists l,
     gibbs_step_for_v (GaussianBinaryRBM self a sigma false) v s =
       (Ok (tabulate (batch_size a) (nvis a)
              (fun i k =>
                 (entry n i k * item (get_value sigma) k +
                  entry (v_mean l) i k)%Q), l),
        snd (draw_matrix next_normal (batch_size a, nvis a) s1))).
Proof.
  intros _ _ _ s1 n.
  destruct (Gaussian_gibbs_step_result self a sigma v s)
    as [(l1 & Hg1 & _ & _ & _ & _ & Hs) (l2 & Hg2 & _)].
  subst n. assert (E : s1 = snd (draw_matrix next_uniform (batch_size a, nhid a) s))
    by exact Hs.
  clearbody s1. subst s1.
  split; [exists l1; exact Hg1 | exists l2; exact Hg2].
Qed.

(** ** The shape of the sample *)

Lemma mshape_clamp (range : option (Q * Q)) (a : matrix) :
  mshape (clamp range a) = mshape a.
Proof.
  destruct range as [[lo hi]|]; [|reflexivity].
  simpl. unfold nrow, ncol. now destruct (mshape a).
Qed.

Lemma wf_clamp (range : option (Q * Q)) (a : matrix) :
  wf_matrix a -> wf_matrix (clamp range a).
Proof.
  destruct range as [[lo hi]|]; [|trivial]. intros _. apply wf_tabulate.
Qed.

Lemma all_entries_elemwise_lt_cast (u p : matrix) :
  all_entries (fun x => x = 0%Q \/ x = 1%Q) (elemwise lt_cast u p).
Proof.
  unfold elemwise. apply all_entries_tabulate. intros. apply lt_cast_bit.
Qed.

(** The sample of a Gibbs step has the shape [(batch_size, nvis)] of the
    model; the sample of the binary-binary model has entries 0 and 1. *)
Lemma gibbs_step_for_v_shape (m : model) (v : matrix) (s : stream) :
  model_wf m ->
  exists sample l s',
    gibbs_step_for_v m v s = (Ok (sample, l), s') /\
    h_mean l = mean_h_given_v m v /\
    mshape sample = (model_batch_size m, model_nvis m) /\
    wf_matrix sample /\
    match m with
    | RBM _ _ => exists u p, sample = elemwise lt_cast u p
    | _ => True
    end.
Proof.
  intros Hwf.
  destruct m as [self a | self a sigma mean_vis | self a].
  - unfold gibbs_step_for_v, RBM_gibbs_step_for_v. simpl.
    unfold bind at 1. rewrite rng_uniform_returns.
    unfold bind at 1. unfold lift_res at 1.
    unfold bind at 1. unfold RBM_sample_visibles, bind.
    rewrite rng_uniform_returns. simpl.
    eexists. eexists. eexists. split; [reflexivity|]. simpl.
    split; [reflexivity|]. split; [|split; [apply wf_tabulate|eauto]].
    unfold nrow, ncol. now rewrite draw_matrix_shape.
  - destruct mean_vis.
    + destruct (Gaussian_gibbs_step_result self a sigma v s)
        as [(l & Hg & Hm & Hs & Hh & _) _].
      exists (v_mean l), l. eexists. split; [exact Hg|].
      split; [rewrite Hh; reflexivity|].
      split; [|split; [rewrite Hm; apply wf_tabulate|exact I]].
      rewrite Hm, Hs. unfold GaussianBinaryRBM_mean_v_given_h.
      destruct Hwf as (_ & _ & HW & _). simpl. shape_of.
      unfold nrow, ncol. rewrite draw_matrix_shape, HW. reflexivity.
    + destruct (Gaussian_gibbs_step_result self a sigma v s)
        as [_ (l & Hg & Hm & Hs & Hh)].
      eexists. exists l. eexists. split; [exact Hg|].
      split; [rewrite Hh; reflexivity|].
      split; [reflexivity|]. split; [apply wf_tabulate|exact I].
  - unfold gibbs_step_for_v, mu_pooled_ssRBM_gibbs_step_for_v. simpl.
    unfold bind. rewrite rng_uniform_returns.
    rewrite rng_normal_returns. rewrite rng_normal_returns. simpl.
    eexists. eexists. eexists. split; [reflexivity|]. simpl.
    split; [reflexivity|]. split; [|split; [apply wf_tabulate|exact I]].
    shape_of. unfold nrow, ncol. now rewrite draw_matrix_shape.
Qed.

(** X4: for a model with parameters of the shapes of its constructor, a
    Gibbs step from a minibatch of the shape [(batch_size, nvis)] returns a
    sample of that shape; the sample of the binary-binary model has only the
    entries 0 and 1. *)
Theorem X4_gibbs_step_sample_shape (m : model) (v : matrix) (s : stream) :
  model_wf m ->
  mshape v = (model_batch_size m, model_nvis m) ->
  exists sample l s',
    gibbs_step_for_v m v s = (Ok (sample, l), s') /\
    mshape sample = (model_batch_size m, model_nvis m) /\
    wf_matrix sample /\
    match m with
    | RBM _ _ => all_entries (fun x => x = 0%Q \/ x = 1%Q) sample
    | _ => True
    end.
Proof.
  intros Hwf _.
  destruct (gibbs_step_for_v_shape m v s Hwf)
    as (sample & l & s' & Hg & _ & Hshape & Hwfs & Hbin).
  exists sample, l, s'.
  split; [exact Hg|]. split; [exact Hshape|]. split; [exact Hwfs|].
  destruct m; try exact I.
  destruct Hbin as (u & p & ->). apply all_entries_elemwise_lt_cast.
Qed.

(** X5: [updates] keeps the shape of the particles: for a model with
    parameters of the shapes of its constructor, particles of the shape
    [(batch_size, nvis)] and [steps >= 1], the value that it gives to the
    particles has that shape, with or without a clip range. *)
Theorem X5_updates_particles_shape (self : PersistentCDSampler) (w : world) :
  model_wf (rbm self) ->
  mshape (get_value (particles self)) =
    (model_batch_size (rbm self), model_nvis (rbm self)) ->
  (1 <= steps self)%Z ->
  particles_apart self w ->
  exists upd self' w' new_particles,
    updates self w = (Ok (upd, self'), w') /\
    upd !! sv_id (particles self) = Some (Mat new_particles) /\
    mshape new_particles =
      (model_batch_size (rbm self), model_nvis (rbm self)) /\
    wf_matrix new_particles.
Proof.
  intros Hwf _ Hsteps Hapart.
  destruct (updates_returns self w Hsteps)
    as (q & s1 & sample & l & s2 & _ & Hg & _ & _ & Hu).
  destruct (gibbs_step_for_v_shape (rbm self) q s1 Hwf)
    as (sample' & l' & s' & Hg' & _ & Hshape & Hwfs & _).
  rewrite Hg in Hg'. injection Hg' as <- <- <-.
  eexists. eexists. eexists. exists (clamp (particles_clip self) sample).
  split; [exact Hu|]. split; [now apply lookup_particles_update|].
  split; [now rewrite mshape_clamp | now apply wf_clamp].
Qed.

(** ** Clipping a binary chain *)

Lemma clip_scalar_inside (lo hi x : Q) :
  (lo <= x)%Q -> (x <= hi)%Q -> clip_scalar lo hi x = x.
Proof.
  intros Hlo Hhi. unfold clip_scalar.
  destruct (Qlt_le_dec x lo) as [Hlt|_].
  - exfalso. exact (Qlt_not_le _ _ Hlt Hlo).
  - destruct (Qlt_le_dec hi x) as [Hgt|_]; [|reflexivity].
    exfalso. exact (Qlt_not_le _ _ Hgt Hhi).
Qed.

Lemma clip_elemwise_lt_cast (lo hi : Q) (u p : matrix) :
  (lo <= 0)%Q -> (1 <= hi)%Q ->
  clip (elemwise lt_cast u p) lo hi = elemwise lt_cast u p.
Proof.
  intros Hlo Hhi. unfold clip, map_matrix, elemwise.
  change (nrow (tabulate ?r ?c ?f)) with r.
  change (ncol (tabulate ?r ?c ?f)) with c.
  apply tabulate_ext. intros i j Hi Hj.
  rewrite entry_tabulate by assumption.
  assert (H01 : (0 <= 1)%Q) by (unfold Qle; simpl; lia).
  destruct (lt_cast_bit (entry u i j) (entry p i j)) as [E|E]; rewrite E.
  - apply clip_scalar_inside; [exact Hlo|].
    exact (Qle_trans _ _ _ H01 Hhi).
  - apply clip_scalar_inside; [|exact Hhi].
    exact (Qle_trans _ _ _ Hlo H01).
Qed.

Lemma RBM_gibbs_step_binary (self : positive) (a : RBM_attrs) (v : matrix)
  (s : stream) :
  exists u p l s',
    gibbs_step_for_v (RBM self a) v s = (Ok (elemwise lt_cast u p, l), s').
Proof.
  unfold gibbs_step_for_v, RBM_gibbs_step_for_v. simpl.
  unfold bind at 1. rewrite rng_uniform_returns.
  unfold bind at 1. unfold lift_res at 1.
  unfold bind at 1. unfold RBM_sample_visibles, bind.
  rewrite rng_uniform_returns. simpl. eauto 10.
Qed.

(** On the binary-binary model, the chain clipped into a range that holds 0
    and 1 is the chain that is not clipped. *)
Lemma spec_chain_binary_clip (self : positive) (a : RBM_attrs) (lo hi : Q)
  (k : nat) :
  (lo <= 0)%Q -> (1 <= hi)%Q ->
  forall p s,
    spec_chain (RBM self a) (Some (lo, hi)) k p s =
    spec_chain (RBM self a) None k p s.
Proof.
  intros Hlo Hhi. induction k as [|k IH]; intros p s; [reflexivity|].
  destruct (RBM_gibbs_step_binary self a p s) as (u & q & l & s' & Hg).
  simpl. unfold bind, spec_chain_step, bind. rewrite Hg.
  unfold ret, clamp. rewrite clip_elemwise_lt_cast by assumption.
  apply IH.
Qed.

(** X6: on the binary-binary model, a clip range that holds 0 and 1 changes
    nothing: [updates] returns the update set, and leaves the stream and
    the world, that it returns and leaves with no clip range. *)
Theorem X6_binary_chain_clip_is_identity
  (self : PersistentCDSampler) (id : positive) (a : RBM_attrs) (lo hi : Q)
  (w : world) :
  rbm self = RBM id a ->
  particles_clip self = Some (lo, hi) ->
  (lo <= 0)%Q -> (1 <= hi)%Q ->
  (1 <= steps self)%Z ->
  exists upd s' w',
    updates self w = (Ok (upd, advanced self s'), w') /\
    updates (without_clip self) w =
      (Ok (upd, advanced (without_clip self) s'), w').
Proof.
  intros Hrbm Hclip Hlo Hhi Hsteps.
  destruct (updates_returns self w Hsteps)
    as (q & s1 & sample & l & s2 & Hq & Hg & _ & _ & Hu).
  destruct (updates_returns (without_clip self) w Hsteps)
    as (q' & s1' & sample' & l' & s2' & Hq' & Hg' & _ & _ & Hu').
  simpl in Hq', Hg', Hu'.
  rewrite Hrbm, Hclip in Hq. rewrite Hrbm in Hq'.
  rewrite (spec_chain_binary_clip id a lo hi _ Hlo Hhi) in Hq.
  rewrite Hq in Hq'. injection Hq' as <- <-.
  rewrite Hg in Hg'. injection Hg' as <- <- <-.
  destruct (RBM_gibbs_step_binary id a q s1) as (u & p & l0 & s0 & Hg0).
  rewrite Hrbm in Hg. rewrite Hg in Hg0. injection Hg0 as -> _ _.
  rewrite Hclip in Hu. unfold clamp in Hu.
  rewrite clip_elemwise_lt_cast in Hu by assumption.
  eexists. eexists. eexists. split; [exact Hu|]. exact Hu'.
Qed.

(** ** What [updates] leaves alone *)

(** X7: [updates] never changes the attribute [h_sample] of another model,
    never replaces an attribute [h_sample] that is there (the world is then
    left as it was, whatever [steps] is), and makes at most one new shared
    variable. *)
Theorem X7_updates_frame (self : PersistentCDSampler) (w : world) :
  let w' := snd (updates self w) in
  (forall obj, obj <> object_id (rbm self) ->
     h_sample_attr w' !! obj = h_sample_attr w !! obj) /\
  (is_Some (h_sample_attr w !! object_id (rbm self)) -> w' = w) /\
  (next_id w' = next_id w \/ next_id w' = Pos.succ (next_id w)).
Proof.
  intros w'. unfold w'. rewrite updates_world. unfold world_after.
  destruct (h_sample_attr w !! object_id (rbm self)) as [x|] eqn:Hx.
  - split; [reflexivity|]. split; [reflexivity|]. now left.
  - split; [|split].
    + intros obj Hobj. simpl. now rewrite lookup_insert_ne by congruence.
    + intros [y Hy]. discriminate.
    + now right.
Qed.

(** ** A sampler that makes no Gibbs step *)

Lemma updates_no_step (self : PersistentCDSampler) (w : world) :
  (steps self <= 0)%Z ->
  fst (updates self w) = Raise (UnboundLocalError "_locals").
Proof.
  intros Hk. unfold updates.
  replace (Z.to_nat (steps self)) with 0%nat by lia. simpl.
  unfold bind at 1. unfold with_stream, ret.
  unfold bind at 1. unfold get_h_sample.
  now destruct (h_sample_attr w !! object_id (rbm self)).
Qed.

(** X8: with a sampler of zero or negative [steps], [training_updates]
    raises the [UnboundLocalError] of the sampler, whatever the minibatch,
    the model and the optimizer are, and still leaves the attribute
    [h_sample] on the model of the sampler. *)
Theorem X8_training_updates_no_step
  (visible_batch : matrix) (m : model) (sampler : PersistentCDSampler)
  (optimizer : Optimizer) (w : world) :
  (steps sampler <= 0)%Z ->
  fst (training_updates visible_batch m sampler optimizer w) =
    Raise (UnboundLocalError "_locals") /\
  is_Some
    (h_sample_attr (snd (training_updates visible_batch m sampler optimizer w))
       !! object_id (rbm sampler)).
Proof.
  intros Hk.
  pose proof (updates_no_step sampler w Hk) as Hr.
  pose proof (updates_world sampler w) as Hw.
  unfold training_updates, bind.
  destruct (updates sampler w) as [[[upd s']|e] w'] eqn:Hu;
    simpl in Hr, Hw; [discriminate|].
  injection Hr as ->. simpl. split; [reflexivity|].
  rewrite Hw, h_sample_attr_world_after. eauto.
Qed.

(** ** The constructors *)

Lemma draw_vector_Forall {St} (draw : St -> Q * St) (P : Q -> Prop) :
  (forall s, P (fst (draw s))) ->
  forall n s, Forall P (fst (draw_vector draw n s)).
Proof.
  intros Hdraw. induction n as [|n IH]; intros s; simpl; [constructor|].
  specialize (Hdraw s). destruct (draw s) as [x s1]. specialize (IH s1).
  destruct (draw_vector draw n s1) as [xs s2]. simpl in *.
  now constructor.
Qed.

Lemma draw_matrix_all_entries {St} (draw : St -> Q * St) (P : Q -> Prop) :
  (forall s, P (fst (draw s))) ->
  forall size s, all_entries P (fst (draw_matrix draw size s)).
Proof.
  intros Hdraw [r c] s. unfold draw_matrix, all_entries. simpl.
  revert s. induction r as [|r IH]; intros s; simpl; [constructor|].
  pose proof (draw_vector_Forall draw P Hdraw c s) as Hrow.
  destruct (draw_vector draw c s) as [row s1]. specialize (IH s1).
  destruct (draw_rows draw r c s1) as [rows s2]. simpl in *.
  now constructor.
Qed.

Lemma entry_all_entries (P : Q -> Prop) (a : matrix) (i j : nat) :
  all_entries P a -> P 0%Q -> P (entry a i j).
Proof.
  intros Ha H0'. unfold entry, all_entries in *.
  destruct (nth_in_or_default i (mrows a) []) as [Hin|Heq].
  - rewrite Forall_forall in Ha. apply list_elem_of_In, Ha in Hin.
    destruct (nth_in_or_default j (nth i (mrows a) []) 0%Q) as [Hin'|Heq'].
    + rewrite Forall_forall in Hin. apply Hin. now apply list_elem_of_In.
    + now rewrite Heq'.
  - rewrite Heq. now destruct j.
Qed.

Lemma initial_weight_bound (u irange : Q) :
  (0 <= u <= 1)%Q -> (0 <= irange)%Q ->
  (- (irange / 2) <= ((1 # 2) - u) * irange <= irange / 2)%Q.
Proof.
  intros [H1' H2'] H3'.
  assert (Ha : (0 <= u * irange)%Q) by now apply Qmult_le_0_compat.
  assert (Hb : (0 <= (1 - u) * irange)%Q).
  { apply Qmult_le_0_compat; [|exact H3']. lra. }
  assert (E : (irange / 2 == (1 # 2) * irange)%Q) by field.
  rewrite E. split; lra.
Qed.

(** What [RBM(...)] returns, in full. *)
Lemma new_RBM_result (nv nh bs : nat) (irange : Q) (rng : rng_arg) (w : world) :
  is_rng_int rng = false ->
  let st := match rng with
            | rng_object st => st
            | _ => RandomState_of_seed 1001
            end in
  let id := next_id w in
  let x := fst (draw_matrix random_sample (nv, nh) st) in
  new_RBM nv nh bs irange rng w =
  (Ok (RBM id
         {| visbias := Shared (Pos.succ id) "vb" (zeros1 nv);
            hidbias := Shared (Pos.succ (Pos.succ id)) "hb" (zeros1 nh);
            weights :=
              Shared (Pos.succ (Pos.succ (Pos.succ id))) "W"
                (map_matrix (fun u => ((1 # 2) - u) * irange)%Q x);
            batch_size := bs; nhid := nh; nvis := nv |},
       match rng with
       | rng_object _ =>
           rng_object (snd (draw_matrix random_sample (nv, nh) st))
       | _ => rng_None
       end),
   {| next_id := Pos.succ (Pos.succ (Pos.succ (Pos.succ id)));
      h_sample_attr := h_sample_attr w |}).
Proof.
  intros Hrng st id x. unfold new_RBM, RBM__init__.
  destruct rng as [|seed|st0]; [|discriminate|];
    unfold bind, fresh_id, sharedX, bind, fresh_id, ret, rand; simpl;
    subst x st; simpl;
    now destruct (draw_matrix random_sample (nv, nh) _).
Qed.

(** X9: called with a generator or with [None], [RBM(...)] returns a model
    of the sizes asked for, with biases of zeros, with weights of the shape
    [(nvis, nhid)] which, when the generator draws in [[0, 1]] and [irange]
    is not negative, lie in [[-irange/2, irange/2]], and with three
    parameters that are new, distinct shared variables; it attaches nothing
    to any model. *)
Theorem X9_RBM_constructor
  (nv nh bs : nat) (irange : Q) (rng : rng_arg) (w : world) :
  is_rng_int rng = false ->
  (forall st, (0 <= fst (random_sample st) <= 1)%Q) ->
  (0 <= irange)%Q ->
  exists a rng' w',
    new_RBM nv nh bs irange rng w = (Ok (RBM (next_id w) a, rng'), w') /\
    (nvis a = nv /\ nhid a = nh /\ batch_size a = bs) /\
    wf_RBM_attrs a /\
    get_value (visbias a) = zeros1 nv /\
    get_value (hidbias a) = zeros1 nh /\
    all_entries (fun x => (- (irange / 2) <= x <= irange / 2)%Q)
      (get_value (weights a)) /\
    NoDup (map sv_id (_params (RBM (next_id w) a))) /\
    (forall p, In p (_params (RBM (next_id w) a)) ->
       (next_id w < sv_id p < next_id w')%positive) /\
    h_sample_attr w' = h_sample_attr w.
Proof.
  intros Hrng Hdraw Hirange.
  rewrite (new_RBM_result nv nh bs irange rng w Hrng).
  eexists. eexists. eexists. split; [reflexivity|]. simpl.
  set (st := match rng with rng_object st => st | _ => _ end).
  pose proof (draw_matrix_shape random_sample (nv, nh) st) as Hshape.
  split; [auto|]. split.
  { repeat split; try apply length_vtabulate.
    - unfold map_matrix, nrow, ncol. now rewrite Hshape.
    - unfold map_matrix, tabulate. simpl. now rewrite length_map, length_seq.
    - apply wf_tabulate. }
  split; [reflexivity|]. split; [reflexivity|]. split.
  { unfold map_matrix. apply all_entries_tabulate. intros i j _ _.
    apply initial_weight_bound; [|exact Hirange].
    apply (entry_all_entries (fun u => (0 <= u <= 1)%Q)).
    - now apply draw_matrix_all_entries.
    - split; [apply Qle_refl | unfold Qle; simpl; lia]. }
  split.
  { simpl. repeat (apply NoDup_cons; split); try apply NoDup_nil_2;
      rewrite ?not_elem_of_cons; repeat split;
      try apply not_elem_of_nil; lia. }
  split; [|reflexivity].
  intros p [<-|[<-|[<-|[]]]]; simpl; lia.
Qed.

(** X10: called with an integer seed as [rng], as by the default [rng=9001]
    of [RBM], each of the three constructors raises [AttributeError]: the
    integer has no method [rand]. *)
Theorem X10_integer_seed_raises
  (nv nh n_s bs : nat) (irange alpha0 alpha_irange b0 B0 Lambda0 Lambda_irange
   mu0 W_irange : Q) (seed : Z) (mean_vis : bool) (w : world) :
  let e := AttributeError "'int' object has no attribute 'rand'" in
  fst (new_RBM nv nh bs irange (rng_int seed) w) = Raise e /\
  fst (new_GaussianBinaryRBM nv nh bs irange (rng_int seed) mean_vis w) =
    Raise e /\
  fst (new_mu_pooled_ssRBM nv nh n_s bs alpha0 alpha_irange b0 B0 Lambda0
         Lambda_irange mu0 W_irange (rng_int seed) w) = Raise e.
Proof.
  intros e. split; [reflexivity|]. split; [reflexivity|].
  unfold new_mu_pooled_ssRBM, mu_pooled_ssRBM__init__.
  unfold bind at 1. unfold fresh_id at 1. unfold bind at 1. unfold bind at 1.
  destruct (Qlt_le_dec 0 alpha_irange); reflexivity.
Qed.

Lemma Qdiv_1_r_eq (x : Q) : (x / 1)%Q = x.
Proof.
  destruct x as [n d]. unfold Qdiv, Qinv, Qmult. simpl.
  now rewrite Z.mul_1_r, Pos.mul_1_r.
Qed.

Lemma Qmult_1_l_eq (x : Q) : (1 * x)%Q = x.
Proof. destruct x as [[|n|n] d]; reflexivity. Qed.

Lemma new_GaussianBinaryRBM_result (nv nh bs : nat) (irange : Q)
  (rng : rng_arg) (mean_vis : bool) (w : world) :
  is_rng_int rng = false ->
  exists a rng' w',
    new_RBM nv nh bs irange rng w = (Ok (RBM (next_id w) a, rng'), w') /\
    new_GaussianBinaryRBM nv nh bs irange rng mean_vis w =
    (Ok (GaussianBinaryRBM (next_id w) a
           (Shared (next_id w') "sigma" (vtabulate nv (fun _ => 1%Q)))
           mean_vis, rng'),
     {| next_id := Pos.succ (next_id w'); h_sample_attr := h_sample_attr w' |}).
Proof.
  intros Hrng. rewrite (new_RBM_result nv nh bs irange rng w Hrng).
  eexists. eexists. eexists. split; [reflexivity|].
  unfold new_GaussianBinaryRBM, RBM__init__.
  destruct rng as [|seed|st0]; [|discriminate|];
    unfold bind, fresh_id, sharedX, bind, fresh_id, ret, rand; simpl;
    now destruct (draw_matrix random_sample (nv, nh) _).
Qed.

(** X11: [GaussianBinaryRBM(...)] makes the parameters of [RBM(...)] and a
    [sigma] of ones; so the model it returns gives to the hidden units the
    input that the binary-binary model of the same parameters gives them,
    and its mean of the visible units is what the binary-binary model
    passes through the sigmoid. *)
Theorem X11_Gaussian_constructor_unit_sigma
  (nv nh bs : nat) (irange : Q) (rng : rng_arg) (mean_vis : bool) (w : world) :
  is_rng_int rng = false ->
  exists a sigma rng' w',
    new_GaussianBinaryRBM nv nh bs irange rng mean_vis w =
      (Ok (GaussianBinaryRBM (next_id w) a sigma mean_vis, rng'), w') /\
    (nvis a = nv /\ nhid a = nh /\ batch_size a = bs) /\
    wf_RBM_attrs a /\
    get_value sigma = vtabulate nv (fun _ => 1%Q) /\
    (forall v, ncol v = nv ->
       input_to_h_from_v (GaussianBinaryRBM (next_id w) a sigma mean_vis) v =
       input_to_h_from_v (RBM (next_id w) a) v) /\
    (forall h,
       RBM_mean_v_given_h a h =
       map_matrix sigmoid (GaussianBinaryRBM_mean_v_given_h a sigma h)).
Proof.
  intros Hrng.
  destruct (new_GaussianBinaryRBM_result nv nh bs irange rng mean_vis w Hrng)
    as (a & rng' & w' & Hnew & Hg).
  destruct (new_RBM_returns nv nh bs irange rng w Hrng)
    as (a0 & rng0 & w0 & Hnew0 & Hnv & Hnh & Hbs & Hwf & _).
  rewrite Hnew in Hnew0. injection Hnew0 as <- <- <-.
  eexists. eexists. eexists. eexists. split; [exact Hg|].
  split; [auto|]. split; [exact Hwf|]. split; [reflexivity|].
  destruct Hwf as (_ & _ & HW & _).
  split.
  - intros v Hv. unfold input_to_h_from_v.
    unfold GaussianBinaryRBM_input_to_h_from_v, RBM_input_to_h_from_v.
    f_equal. unfold dot. shape_of. apply tabulate_ext. intros i j Hi Hj.
    apply sum_to_ext. intros k Hk. f_equal.
    unfold elemwise_mv. rewrite entry_tabulate by lia.
    cbn [get_value]. rewrite item_vtabulate by lia. apply Qdiv_1_r_eq.
  - intros h. unfold RBM_mean_v_given_h, GaussianBinaryRBM_mean_v_given_h.
    f_equal. f_equal. unfold elemwise_vm. shape_of. unfold dot at 2.
    shape_of. apply tabulate_ext. intros i k Hi Hk.
    unfold nrow in Hk. rewrite HW in Hk. simpl in Hk.
    cbn [get_value]. rewrite item_vtabulate by lia. rewrite Qmult_1_l_eq.
    unfold dot. shape_of. symmetry. apply entry_tabulate; [exact Hi|].
    unfold nrow. rewrite HW. exact Hk.
Qed.

(** ** The stack of layers *)

Lemma build_layers_binary_classes (bs : nat) (irange : Q) :
  forall (seq : list (nat * nat * nat)) (rng : rng_arg) (acc : list model)
         (w : world),
    is_rng_int rng = false ->
    exists new rng' w',
      build_layers seq bs "binary" None irange rng acc w =
        (Ok (acc ++ new, rng'), w') /\
      map model_nhid new = map (fun x => snd (fst x)) seq /\
      Forall (fun m => model_batch_size m = bs /\
                       exists id a, m = RBM id a) new.
Proof.
  induction seq as [|[[k nh] nv] seq IH]; intros rng acc w Hrng.
  - exists [], rng, w. simpl. rewrite app_nil_r. auto.
  - simpl build_layers.
    replace ((k =? 0)%nat && false) with false by now destruct (k =? 0)%nat.
    destruct (new_RBM_returns (nv - nv) nh bs irange rng w Hrng)
      as (a & rng1 & w1 & Hnew & _ & Hnh & Hbs & _ & Hrng1).
    unfold bind at 1. rewrite Hnew.
    destruct (IH rng1 (acc ++ [RBM (next_id w) a]) w1 Hrng1)
      as (new & rng2 & w2 & Hb & Hhid & Hall).
    exists (RBM (next_id w) a :: new), rng2, w2.
    rewrite Hb, <- app_assoc. simpl. rewrite Hhid, Hnh.
    split; [reflexivity|]. split; [reflexivity|].
    constructor; [|exact Hall]. simpl. eauto.
Qed.

(** X12: when [build_stacked_RBM] raises and what it returns.  It raises
    [AssertionError] for a [vis_type] other than ['binary'] and
    ['gaussian'], and for ['binary'] with an [input_mean_vis] that is not
    [None]; [TypeError] for ['gaussian'], whatever [input_mean_vis] is;
    [AttributeError] for an integer seed as [rng] when there is a layer to
    build.  Else it returns one layer for each hidden size, in their order,
    each an [RBM] of that many hidden units and of the given batch size. *)
Theorem X12_build_stacked_RBM_outcomes
  (nv : nat) (nhids : list nat) (bs : nat) (vis_type : string)
  (input_mean_vis : option bool) (irange : Q) (rng : rng_arg) (w : world) :
  let r :=
    fst (build_stacked_RBM nv nhids bs vis_type input_mean_vis irange rng w) in
  (vis_type <> "binary" -> vis_type <> "gaussian" ->
   r = Raise AssertionError) /\
  (vis_type = "gaussian" ->
   r = Raise (TypeError "argument of type 'bool' is not iterable")) /\
  (vis_type = "binary" -> input_mean_vis <> None ->
   r = Raise AssertionError) /\
  (vis_type = "binary" -> input_mean_vis = None -> nhids <> [] ->
   is_rng_int rng = true ->
   r = Raise (AttributeError "'int' object has no attribute 'rand'")) /\
  (vis_type = "binary" -> input_mean_vis = None ->
   nhids = [] \/ is_rng_int rng = false ->
   exists sb rng',
     r = Ok (sb, rng') /\
     length (layers sb) = length nhids /\
     map model_nhid (layers sb) = nhids /\
     Forall (fun m => model_batch_size m = bs /\ exists id a, m = RBM id a)
       (layers sb)).
Proof.
  intros r. unfold r, build_stacked_RBM. repeat split.
  - intros Hb Hg.
    apply String.eqb_neq in Hb. apply String.eqb_neq in Hg.
    now rewrite Hb, Hg.
  - intros ->. reflexivity.
  - intros -> Hm. change (String.eqb "binary" "binary") with true.
    cbn [negb orb]. unfold bind.
    destruct input_mean_vis; [reflexivity|congruence].
  - intros -> -> Hne Hint. change (String.eqb "binary" "binary") with true.
    cbn [negb orb]. unfold bind at 1. unfold ret at 1.
    destruct nhids as [|nh nhids]; [congruence|].
    destruct rng as [|seed|st]; try discriminate. reflexivity.
  - intros -> -> Hcase. change (String.eqb "binary" "binary") with true.
    cbn [negb orb]. unfold bind at 1. unfold ret at 1.
    destruct Hcase as [->|Hrng].
    + exists {| layers := [] |}, rng. simpl. auto.
    + set (seq := izip3 _ _ _).
      assert (Hlen : (length nhids <= length (nv :: removelast nhids))%nat).
      { rewrite removelast_firstn_len, length_cons, length_firstn. lia. }
      assert (Hmid : map (fun x => snd (fst x)) seq = nhids).
      { apply izip3_middle; [now rewrite length_seq | exact Hlen]. }
      destruct (build_layers_binary_classes bs irange seq rng [] w Hrng)
        as (new & rng' & w' & Hb & Hhid & Hall).
      unfold bind. rewrite Hb. simpl.
      exists {| layers := new |}, rng'. split; [reflexivity|]. simpl.
      split; [|split; [now rewrite Hhid, Hmid | exact Hall]].
      now rewrite <- (length_map model_nhid new), Hhid, Hmid.
Qed.

(** ** The binary-binary model, entry by entry *)

Lemma entry_transpose (a : matrix) (i j : nat) :
  (i < ncol a)%nat -> (j < nrow a)%nat -> entry (transpose a) i j = entry a j i.
Proof. intros. unfold transpose. now rewrite entry_tabulate. Qed.

Lemma RBM_input_to_h (self : positive) (a : RBM_attrs) (v : matrix) :
  wf_RBM_attrs a -> ncol v = nvis a ->
  input_to_h_from_v (RBM self a) v =
  tabulate (nrow v) (nhid a) (RBM_input_entry a v).
Proof.
  intros (_ & _ & HW & _) Hv. unfold input_to_h_from_v, RBM_input_to_h_from_v.
  assert (HcW : ncol (get_value (weights a)) = nhid a)
    by (unfold ncol; now rewrite HW).
  unfold elemwise_vm. shape_of. rewrite HcW.
  apply tabulate_ext. intros i j Hi Hj. unfold RBM_input_entry. f_equal.
  unfold dot. rewrite entry_tabulate by lia. now rewrite Hv.
Qed.

(** X13: on the binary-binary model, the input of the hidden units is
    [hidbias_j + sum_k v_ik W_kj], their mean is the sigmoid of it, and the
    free energy of an example is minus the sum of [v.visbias] and of the
    softplus of the inputs of the hidden units. *)
Theorem X13_binary_free_energy
  (self : positive) (a : RBM_attrs) (v : matrix) :
  wf_RBM_attrs a -> ncol v = nvis a ->
  let m := RBM self a in
  input_to_h_from_v m v = tabulate (nrow v) (nhid a) (RBM_input_entry a v) /\
  mean_h_given_v m v =
    tabulate (nrow v) (nhid a) (fun i j => sigmoid (RBM_input_entry a v i j)) /\
  free_energy_given_v m v = vtabulate (nrow v) (RBM_free_energy_entry a v).
Proof.
  intros Hwf Hv m. pose proof (RBM_input_to_h self a v Hwf Hv) as Hin.
  split; [exact Hin|]. split.
  - unfold mean_h_given_v. fold m in Hin. rewrite Hin.
    unfold map_matrix. shape_of. apply tabulate_ext. intros i j Hi Hj.
    now rewrite entry_tabulate.
  - unfold m, free_energy_given_v, RBM_free_energy_given_v. rewrite Hin.
    unfold elemwise_vv. rewrite length_dot_mv.
    unfold vtabulate. rewrite map_map.
    apply map_ext_in. intros i Hi.
    apply in_seq in Hi. unfold RBM_free_energy_entry. f_equal.
    unfold dot_mv. rewrite item_vtabulate by lia.
    rewrite item_sum_axis1 by (shape_of; lia). shape_of. rewrite Hv.
    f_equal. apply sum_to_ext. intros j Hj.
    rewrite entry_map_matrix by (shape_of; lia).
    now rewrite entry_tabulate by lia.
Qed.

(** X14: the mean of the visible units uses the weights transposed:
    visible unit [k] of example [i] gets [sum_j h_ij W_kj], to which the
    binary-binary model adds the visible bias and applies the sigmoid, and
    which the Gaussian-binary model multiplies by [sigma_k] before it adds
    the visible bias, with no sigmoid. *)
Theorem X14_mean_v_given_h_entries
  (self : positive) (a : RBM_attrs) (sigma : shared vector) (mean_vis : bool)
  (h : matrix) :
  wf_RBM_attrs a -> ncol h = nhid a ->
  mean_v_given_h (RBM self a) h =
    Ok (tabulate (nrow h) (nvis a)
          (fun i k =>
             sigmoid (item (get_value (visbias a)) k +
                      RBM_feedback_entry a h i k)%Q)) /\
  mean_v_given_h (GaussianBinaryRBM self a sigma mean_vis) h =
    Ok (tabulate (nrow h) (nvis a)
          (fun i k =>
             (item (get_value (visbias a)) k +
              item (get_value sigma) k * RBM_feedback_entry a h i k)%Q)).
Proof.
  intros (_ & _ & HW & _) Hh.
  assert (HrW : nrow (get_value (weights a)) = nvis a)
    by (unfold nrow; now rewrite HW).
  assert (HcW : ncol (get_value (weights a)) = nhid a)
    by (unfold ncol; now rewrite HW).
  assert (Hdot : forall i k, (i < nrow h)%nat -> (k < nvis a)%nat ->
            entry (dot h (transpose (get_value (weights a)))) i k =
            RBM_feedback_entry a h i k).
  { intros i k Hi Hk. rewrite entry_dot by (shape_of; lia). rewrite Hh.
    apply sum_to_ext. intros j Hj. now rewrite entry_transpose by lia. }
  split; simpl; f_equal.
  - unfold RBM_mean_v_given_h, map_matrix, elemwise_vm. shape_of. rewrite HrW.
    apply tabulate_ext. intros i k Hi Hk.
    rewrite entry_tabulate by assumption. now rewrite Hdot.
  - unfold GaussianBinaryRBM_mean_v_given_h. unfold elemwise_vm at 1.
    shape_of. rewrite HrW. apply tabulate_ext. intros i k Hi Hk.
    rewrite entry_elemwise_vm by (shape_of; lia). now rewrite Hdot.
Qed.

(** ** The conditionals of the pooled spike-and-slab model *)

(** Where the model is defined, the precision of a visible unit given
    hidden units of 0 and 1, by which [mean_var_v_given_h_s] divides, is
    positive. *)
Lemma pooled_precision_positive
  (self : positive) (a : ssRBM_attrs) (h : matrix) (i k : nat) :
  wf_ssRBM_attrs a ->
  model_defined (mu_pooled_ssRBM self a) ->
  all_entries (fun x => x = 0%Q \/ x = 1%Q) h ->
  (k < ss_nvis a)%nat ->
  (0 < item (get_value (B a)) k +
       sum_to (ss_nhid a)
         (fun j => entry h i j * entry (get_value (Lambda a)) k j))%Q.
Proof.
  intros (_ & _ & _ & _ & _ & _ & HB & _) (_ & HBpos & HL) Hh Hk.
  assert (Hb : (0 < item (get_value (B a)) k)%Q).
  { unfold item. rewrite Forall_forall in HBpos. apply HBpos.
    apply list_elem_of_In, nth_In. lia. }
  assert (Hs : (0 <= sum_to (ss_nhid a)
                  (fun j => entry h i j * entry (get_value (Lambda a)) k j))%Q).
  { apply sum_to_nonneg. intros j.
    apply Qmult_le_0_compat.
    - apply (entry_all_entries (fun x => (0 <= x)%Q)); [|apply Qle_refl].
      unfold all_entries in *. eapply Forall_impl; [exact Hh|].
      intros row Hrow. eapply Forall_impl; [exact Hrow|].
      intros x [->| ->]; [apply Qle_refl | unfold Qle; simpl; lia].
    - apply (entry_all_entries (fun x => (0 <= x)%Q)); [exact HL|].
      apply Qle_refl. }
  lra.
Qed.

Lemma reshape3_entry (a : ssRBM_attrs) (x : matrix) (i j t : nat) :
  (0 < n_s_per_h a)%nat ->
  ncol x = (ss_nhid a * n_s_per_h a)%nat ->
  (i < nrow x)%nat -> (j < ss_nhid a)%nat -> (t < n_s_per_h a)%nat ->
  entry3 (reshape3 x (ss_nhid a) (n_s_per_h a)) i j t =
  entry x i (j * n_s_per_h a + t).
Proof.
  intros Hn Hc Hi Hj Ht. unfold reshape3.
  assert (Hpos : (ss_nhid a * n_s_per_h a <> 0)%nat) by nia.
  rewrite entry3_tabulate3;
    [| rewrite Hc, Nat.div_mul by exact Hpos; exact Hi | exact Hj | exact Ht].
  rewrite <- Hc. rewrite <- Nat.add_assoc. apply flat_row_major. nia.
Qed.

(** [(h.dimshuffle(0, 1, 'x') * s3).flatten(2)] gives to slab unit [p] the
    product of its entry in [s] with the hidden unit [p / n_s_per_h]. *)
Lemma entry_flatten_hs (a : ssRBM_attrs) (h s : matrix) (i p : nat) :
  (0 < n_s_per_h a)%nat ->
  ncol s = (ss_nhid a * n_s_per_h a)%nat ->
  (i < nrow s)%nat -> (p < ss_nhid a * n_s_per_h a)%nat ->
  entry
    (flatten2
       (mul_dimshuffle_01x h (reshape3 s (ss_nhid a) (n_s_per_h a)))) i p =
  (entry h i (p / n_s_per_h a) * entry s i p)%Q.
Proof.
  intros Hn Hc Hi Hp.
  assert (Hpos : (ss_nhid a * n_s_per_h a <> 0)%nat) by nia.
  assert (Hdiv : (p / n_s_per_h a < ss_nhid a)%nat)
    by (apply Nat.Div0.div_lt_upper_bound; nia).
  assert (Hmod : (p mod n_s_per_h a < n_s_per_h a)%nat)
    by (apply Nat.mod_upper_bound; lia).
  assert (Hd0 : (nrow s * ncol s / (ss_nhid a * n_s_per_h a) = nrow s)%nat)
    by (rewrite Hc; now apply Nat.div_mul).
  unfold flatten2, mul_dimshuffle_01x.
  change (t3shape (reshape3 s (ss_nhid a) (n_s_per_h a)))
    with ((nrow s * ncol s / (ss_nhid a * n_s_per_h a))%nat,
          ss_nhid a, n_s_per_h a).
  cbv iota beta.
  change (t3shape (tabulate3 ?d0 ?d1 ?d2 ?f)) with (d0, d1, d2).
  cbv iota beta. rewrite Hd0.
  rewrite entry_tabulate by assumption.
  rewrite entry3_tabulate3 by assumption.
  rewrite reshape3_entry by assumption.
  assert (E : (p / n_s_per_h a * n_s_per_h a + p mod n_s_per_h a = p)%nat)
    by (rewrite Nat.mul_comm; symmetry; apply Nat.div_mod_eq).
  now rewrite E.
Qed.

(** X15: the conditionals of the pooled spike-and-slab model.  Given the
    visible units, slab unit [p] has the mean [mu_p + (v.W)_p / alpha_p] and
    the variance [1 / alpha_p].  Given hidden units [h] and slab units [s],
    visible unit [k] has the variance [1 / (B_k + sum_j h_j Lambda_kj)] and,
    as mean, that variance times [sum_p h_(p / n_s_per_h) s_p W_kp]: each
    slab unit counts with the hidden unit that it is pooled into. *)
Theorem X15_pooled_ssRBM_conditionals
  (a : ssRBM_attrs) (v h s : matrix) :
  wf_ssRBM_attrs a ->
  ncol v = ss_nvis a ->
  ncol h = ss_nhid a -> ncol s = ss_nslab a -> nrow h = nrow s ->
  (fst (mean_var_s_given_v_h1 a v) =
     tabulate (nrow v) (ss_nslab a) (ssRBM_s_mean_entry a v) /\
   length (snd (mean_var_s_given_v_h1 a v)) = ss_nslab a /\
   forall p, (p < ss_nslab a)%nat ->
     item (snd (mean_var_s_given_v_h1 a v)) p =
     (1 / exp (item (get_value (log_alpha a)) p))%Q) /\
  (snd (mean_var_v_given_h_s a h s) =
     tabulate (nrow h) (ss_nvis a) (ssRBM_v_var_entry a h) /\
   ((0 < ss_nhid a)%nat ->
    fst (mean_var_v_given_h_s a h s) =
      tabulate (nrow s) (ss_nvis a) (ssRBM_v_mean_entry a h s))).
Proof.
  intros (Hn & Hslab & Hla & Hmu & Hb & HW & HB & HL) Hv Hh Hs Hrows.
  assert (HcW : ncol (get_value (W a)) = ss_nslab a)
    by (unfold ncol; now rewrite HW).
  assert (HrW : nrow (get_value (W a)) = ss_nvis a)
    by (unfold nrow; now rewrite HW).
  assert (HcL : ncol (get_value (Lambda a)) = ss_nhid a)
    by (unfold ncol; now rewrite HL).
  assert (HrL : nrow (get_value (Lambda a)) = ss_nvis a)
    by (unfold nrow; now rewrite HL).
  assert (Hvar : map_matrix (Qdiv 1)
                   (elemwise_vm Qplus (get_value (B a))
                      (dot h (transpose (get_value (Lambda a))))) =
                 tabulate (nrow h) (ss_nvis a) (ssRBM_v_var_entry a h)).
  { unfold map_matrix. shape_of. rewrite HrL.
    apply tabulate_ext. intros i k Hi Hk. unfold ssRBM_v_var_entry.
    rewrite entry_elemwise_vm by (shape_of; lia).
    rewrite entry_dot by (shape_of; lia). rewrite Hh. do 2 f_equal.
    apply sum_to_ext. intros j Hj. now rewrite entry_transpose by lia. }
  split; [split; [|split]|split].
  - unfold mean_var_s_given_v_h1. simpl fst. unfold elemwise_vm. shape_of.
    rewrite HcW. apply tabulate_ext. intros i p Hi Hp.
    unfold ssRBM_s_mean_entry.
    rewrite entry_elemwise_mv by (shape_of; lia).
    rewrite ssRBM_vW by assumption.
    now rewrite item_alpha by lia.
  - unfold mean_var_s_given_v_h1. simpl snd. unfold alpha.
    now rewrite !length_map.
  - intros p Hp. unfold mean_var_s_given_v_h1. simpl snd.
    rewrite item_map by (unfold alpha; rewrite length_map; lia).
    now rewrite item_alpha by lia.
  - unfold mean_var_v_given_h_s. simpl snd. exact Hvar.
  - intros Hhid. unfold mean_var_v_given_h_s. simpl fst. rewrite Hvar.
    assert (Hcs : ncol s = (ss_nhid a * n_s_per_h a)%nat) by lia.
    assert (Hpos : (ss_nhid a * n_s_per_h a <> 0)%nat) by nia.
    set (F := flatten2 _).
    assert (HF : mshape F = (nrow s, (ss_nhid a * n_s_per_h a)%nat)).
    { unfold F, flatten2, mul_dimshuffle_01x.
      change (t3shape (reshape3 s (ss_nhid a) (n_s_per_h a)))
        with ((nrow s * ncol s / (ss_nhid a * n_s_per_h a))%nat,
              ss_nhid a, n_s_per_h a).
      cbv iota beta.
      change (t3shape (tabulate3 ?d0 ?d1 ?d2 ?f)) with (d0, d1, d2).
      cbv iota beta. simpl. rewrite Hcs. now rewrite Nat.div_mul. }
    assert (HrF : nrow F = nrow s) by (unfold nrow; now rewrite HF).
    assert (HcF : ncol F = (ss_nhid a * n_s_per_h a)%nat)
      by (unfold ncol; now rewrite HF).
    unfold elemwise. shape_of. rewrite HrF, HrW.
    apply tabulate_ext. intros i k Hi Hk. unfold ssRBM_v_mean_entry.
    rewrite entry_tabulate by lia. f_equal.
    rewrite entry_dot by (shape_of; lia). rewrite HcF.
    apply sum_to_ext. intros p Hp.
    rewrite entry_transpose by lia. f_equal.
    unfold F. now apply entry_flatten_hs.
Qed.

(** ** The constructor of the pooled spike-and-slab model *)

Lemma draw_vector_length {St} (draw : St -> Q * St) (n : nat) (s : St) :
  length (fst (draw_vector draw n s)) = n.
Proof.
  revert s. induction n as [|n IH]; intros s; simpl; [reflexivity|].
  destruct (draw s) as [x s1]. specialize (IH s1).
  destruct (draw_vector draw n s1) as [xs s2]. simpl in *. now rewrite IH.
Qed.

Ltac name_draws :=
  repeat match goal with
  | |- context [draw_vector ?d ?n ?s] =>
      let E := fresh "Edraw" in
      pose proof (draw_vector_length d n s) as E;
      destruct (draw_vector d n s); simpl in E; unfold ret; simpl
  | |- context [draw_matrix ?d ?n ?s] =>
      let E := fresh "Edraw" in
      pose proof (draw_matrix_shape d n s) as E;
      destruct (draw_matrix d n s); simpl in E; unfold ret; simpl
  end.

(** X16: called with a generator or with [None], and a positive number of
    slab units per hidden unit, [mu_pooled_ssRBM(...)] returns a model with
    [nslab = nhid * n_s_per_h], with the sizes asked for, with parameters of
    the shapes that the class documents, which are six new, distinct shared
    variables, with [mu], [b] and [B] constant at [mu0], [b0] and [B0]; it
    attaches nothing to any model. *)
Theorem X16_pooled_ssRBM_constructor
  (nv nh n bs : nat)
  (alpha0 alpha_irange b0 B0 Lambda0 Lambda_irange mu0 W_irange : Q)
  (rng : rng_arg) (w : world) :
  is_rng_int rng = false ->
  (0 < n)%nat ->
  exists a rng' w',
    new_mu_pooled_ssRBM nv nh n bs alpha0 alpha_irange b0 B0 Lambda0
      Lambda_irange mu0 W_irange rng w =
    (Ok (mu_pooled_ssRBM (next_id w) a, rng'), w') /\
    (ss_nvis a = nv /\ ss_nhid a = nh /\ n_s_per_h a = n /\
     ss_nslab a = (nh * n)%nat /\ ss_batch_size a = bs) /\
    wf_ssRBM_attrs a /\
    get_value (mu a) = vtabulate (nh * n) (fun _ => (0 + mu0)%Q) /\
    get_value (b a) = vtabulate nh (fun _ => (0 + b0)%Q) /\
    get_value (B a) = vtabulate nv (fun _ => (0 + B0)%Q) /\
    NoDup (map sv_id (_params (mu_pooled_ssRBM (next_id w) a))) /\
    (forall p, In p (_params (mu_pooled_ssRBM (next_id w) a)) ->
       (next_id w < sv_id p < next_id w')%positive) /\
    h_sample_attr w' = h_sample_attr w.
Proof.
  intros Hrng Hn.
  unfold new_mu_pooled_ssRBM, mu_pooled_ssRBM__init__.
  destruct rng as [|seed|st0]; [|discriminate|];
    destruct (Qlt_le_dec 0 alpha_irange), (Qlt_le_dec 0 Lambda_irange);
    unfold bind, fresh_id, sharedX, bind, fresh_id, ret, rand, rand1;
    simpl; name_draws; simpl;
    (eexists; eexists; eexists; split; [reflexivity|]); simpl;
    (split; [auto 6|]);
    (split;
     [unfold wf_ssRBM_attrs; simpl;
      rewrite ?length_map, ?length_elemwise_vv, ?length_vtabulate;
      unfold map_matrix, nrow, ncol; simpl;
      repeat match goal with E : mshape _ = _ |- _ => rewrite E; clear E end;
      simpl; auto 10|]);
    (split; [reflexivity|]); (split; [reflexivity|]); (split; [reflexivity|]);
    (split;
     [repeat (apply NoDup_cons; split); try apply NoDup_nil_2;
      rewrite ?not_elem_of_cons; repeat split;
      try apply not_elem_of_nil; lia|]);
    (split; [|reflexivity]);
    intros p [<-|[<-|[<-|[<-|[<-|[<-|[]]]]]]]; simpl; lia.
Qed.

(** ** Training on a model and a sampler just made *)

(** X17: a binary-binary model just made and a sampler just made for it,
    with at least one step, can be trained: the two keys of the update set of
    the sampler are newer than the parameters of the model, so that with an
    optimizer that updates parameters of the model only, [training_updates]
    does not raise; it returns the updates of the optimizer for the
    parameters, together with the ones of the sampler. *)
Theorem X17_training_on_new_objects
  (nv nh bs : nat) (irange : Q) (rng srng : rng_arg) (p0 : matrix)
  (n_steps : Z) (range : option (Q * Q)) (w : world) :
  is_rng_int rng = false ->
  (1 <= n_steps)%Z ->
  h_sample_attr w !! next_id w = None ->
  exists m rng1 w1 sampler srng1 w2,
    new_RBM nv nh bs irange rng w = (Ok (m, rng1), w1) /\
    new_PersistentCDSampler m p0 srng n_steps range w1 =
      (Ok (sampler, srng1), w2) /\
    forall (optimizer : Optimizer) (visible_batch : matrix),
      let ups :=
        optimizer_updates optimizer
          (ml_gradients m visible_batch (get_value (particles sampler))) in
      dom ups ⊆ list_to_set (map sv_id (params m)) ->
      exists sampler_updates all sampler' w3,
        updates sampler w2 = (Ok (sampler_updates, sampler'), w3) /\
        dom ups ## dom sampler_updates /\
        training_updates visible_batch m sampler optimizer w2 =
          (Ok (all, sampler'), w3) /\
        all = ups ∪ sampler_updates.
Proof.
  intros Hrng Hsteps Hnew.
  rewrite (new_RBM_result nv nh bs irange rng w Hrng).
  cbv zeta.
  set (id := next_id w).
  set (a := {| visbias := _ |}).
  set (rng1 := match rng with rng_object _ => _ | _ => rng_None end).
  set (w1 := {| next_id := _ |}).
  unfold new_PersistentCDSampler.
  set (st := match srng with rng_None => _ | rng_int _ => _ | rng_object s => s end).
  destruct (randint (2 ^ 30) st) as [seed st'].
  unfold bind, sharedX, bind, fresh_id, ret. simpl.
  eexists. eexists. eexists. eexists. eexists. eexists.
  split; [reflexivity|]. split; [reflexivity|].
  intros optimizer visible_batch.
  set (sampler := {| rbm := RBM id a |}).
  set (ups := optimizer_updates _ _). intros Hsub.
  set (w2 := {| next_id := Pos.succ _ |}).
  destruct (updates_returns sampler w2 Hsteps)
    as (q & s1 & sample & l & s2 & _ & _ & _ & _ & Hu).
  assert (Hvar : h_sample_var sampler w2 =
                 Shared (next_id w2) "h_sample" (zeros2 0 0)).
  { unfold h_sample_var.
    change (h_sample_attr w2 !! object_id (rbm sampler))
      with (h_sample_attr w !! next_id w).
    now rewrite Hnew. }
  rewrite Hvar in Hu.
  assert (Hd : dom ups ##
               dom (<[sv_id (Shared (next_id w2) "h_sample" (zeros2 0 0)) :=
                        Mat (h_mean l)]>
                      ({[sv_id (particles sampler) :=
                           Mat (clamp (particles_clip sampler) sample)]}
                       : update_set))).
  { rewrite dom_two_updates. intros k Hk1 Hk2. apply Hsub in Hk1.
    simpl in Hk1, Hk2. set_unfold. lia. }
  eexists. eexists. eexists. eexists.
  split; [exact Hu|]. split; [exact Hd|].
  split; [|reflexivity].
  unfold training_updates. unfold bind at 1. fold ups.
  change (get_value (particles sampler)) with p0 in *.
  rewrite Hu. unfold bind, lift_res. fold ups.
  now rewrite (safe_update_disjoint _ _ Hd).
Qed.

End MoreProperties.

(** * The statements at the example objects *)

(** The update set that the example sampler returns: the sample after two
    clipped Gibbs steps for the particles, and the means of the hidden units
    in the second step for [h_sample], which the call attaches to the
    model. *)
Example example_updates_values :
  match @updates example_Backend example_RandomStreams example_sampler
          example_world_sampler with
  | (Ok (upd, _), w') =>
      upd !! 5%positive = Some (Mat (of_rows 2 [[1; 1]; [0; 1]]%Q)) /\
      upd !! 6%positive =
        Some (Mat (of_rows 3 [[3 # 4; 1 # 4; 3 # 4]; [3 # 4; 1 # 4; 3 # 4]]%Q)) /\
      h_sample_attr w' !! 1%positive =
        Some (Shared 6 "h_sample" (of_rows 0 []))
  | _ => False
  end.
Proof. vm_compute. repeat split; reflexivity. Qed.

(** The layers for the input size 3 and the hidden sizes 2 and 4. *)
Example example_stacked_sizes :
  match @build_stacked_RBM example_NumpyRandom 3 [2; 4]%nat 10 "binary" None
          (1 # 1000) rng_None example_world with
  | (Ok (sb, _), _) =>
      map (fun m => (model_nvis m, model_nhid m)) (layers sb) =
      [(0, 2); (0, 4)]%nat
  | _ => False
  end.
Proof. vm_compute. reflexivity. Qed.

(** An optimizer rigged to declare a next value for the particles of the
    sampler: the merge raises. *)
Example example_colliding_keys :
  fst (@training_updates example_Backend example_RandomStreams
         example_AutoDiff example_batch example_model example_sampler
         (example_Optimizer [5%positive]) example_world_sampler) =
  Raise (KeyError 5).
Proof. vm_compute. reflexivity. Qed.

(** An optimizer that declares next values for the three parameters of the
    model: the merged set has these and the two of the sampler. *)
Example example_disjoint_keys :
  match @training_updates example_Backend example_RandomStreams
          example_AutoDiff example_batch example_model example_sampler
          (example_Optimizer [2; 3; 4]%positive) example_world_sampler with
  | (Ok (ups, _), _) =>
      map (fun k => bool_decide (is_Some (ups !! k)))
        [1; 2; 3; 4; 5; 6; 7]%positive =
      [false; true; true; true; true; true; false]
  | _ => False
  end.
Proof. vm_compute. reflexivity. Qed.

(** The clip shapes the trajectory: after two steps on the example
    spike-and-slab sampler, the particles of the clipped chain are not the
    clipped particles of the chain with no clip range (entries reduced to
    lowest terms). *)
Example example_clip_in_trajectory :
  let value (r : Res (update_set * @PersistentCDSampler example_RandomStreams)
                 * world) :=
    match r with
    | (Ok (upd, _), _) =>
        match upd !! 13%positive with
        | Some (Mat x) => map (map Qred) (mrows x)
        | _ => []
        end
    | _ => []
    end in
  value (@updates example_Backend example_RandomStreams
           example_ssRBM_sampler example_world_ssRBM_sampler) =
    [[1; 1 # 2]; [1; 1]]%Q /\
  value (@updates example_Backend example_RandomStreams
           (without_clip example_ssRBM_sampler) example_world_ssRBM_sampler) =
    [[15 # 4; 0]; [5 # 4; 2]]%Q.
Proof. vm_compute. split; reflexivity. Qed.

(** With no Gibbs step, [updates] raises. *)
Example example_no_step :
  fst (@updates example_Backend example_RandomStreams
         {| rbm := example_model;
            s_rng := (85%Z : @stream example_RandomStreams);
            particles := Shared 5 "particles" (of_rows 2 [[1; 0]; [0; 1]]%Q);
            steps := 0;
            particles_clip := None |} example_world_sampler) =
  Raise (UnboundLocalError "_locals").
Proof. vm_compute. reflexivity. Qed.

Lemma example_particles_apart :
  particles_apart example_sampler example_world_sampler.
Proof.
  split; [reflexivity|].
  intros x Hx. vm_compute in Hx. discriminate Hx.
Defined.

Lemma example_wf_RBM_attrs : wf_RBM_attrs example_RBM_attrs.
Proof.
  repeat split; try reflexivity.
  simpl. repeat constructor.
Defined.

Lemma example_wf_ssRBM_attrs : wf_ssRBM_attrs example_ssRBM_attrs.
Proof. repeat split; try reflexivity. simpl. lia. Defined.

Lemma C2_merge_raises_on_collision_witness :
  (1 <= steps example_sampler)%Z /\
  exists sampler_updates sampler' w',
    @updates example_Backend example_RandomStreams example_sampler example_world_sampler =
    (Ok (sampler_updates, sampler'), w').
Proof.
  assert (Hsteps : (1 <= steps example_sampler)%Z) by (simpl; lia).
  split; [exact Hsteps|].
  destruct (@C2_merge_raises_on_collision example_Backend
              example_RandomStreams example_AutoDiff example_batch
              example_model example_sampler (example_Optimizer [2; 3; 4]%positive)
              example_world_sampler Hsteps)
    as (su & sampler' & w' & Hu & _).
  exists su, sampler', w'. exact Hu.
Defined.


Lemma example_ssRBM_defined :
  @model_defined example_Backend (mu_pooled_ssRBM 6 example_ssRBM_attrs).
Proof.
  split; [|split].
  - repeat constructor.
  - repeat constructor.
  - repeat constructor; unfold Qle; simpl; lia.
Defined.


Lemma C5_no_gibbs_step_raises_witness :
  (0 <= 0)%Z /\
  exists self rng' w',
    @new_PersistentCDSampler example_RandomStreams example_NumpyRandom
      example_model
      (of_rows 2 [[1; 0]; [0; 1]]%Q) rng_None 0 None example_world =
    (Ok (self, rng'), w') /\
    exists w2,
      @updates example_Backend example_RandomStreams self w' =
      (Raise (UnboundLocalError "_locals"), w2).
Proof.
  assert (Hk : (0 <= 0)%Z) by lia.
  split; [exact Hk|].
  destruct (@C5_no_gibbs_step_raises example_Backend example_RandomStreams
              example_NumpyRandom example_model
              (of_rows 2 [[1; 0]; [0; 1]]%Q) rng_None 0%Z None example_world)
    as (self & rng' & w' & Hnew & _ & Hraise).
  exists self, rng', w'. split; [exact Hnew|].
  destruct (Hraise w') as [Hzero _]. exact (Hzero Hk).
Defined.

Lemma C7_Gaussian_binary_free_energy_witness :
  (wf_RBM_attrs example_RBM_attrs /\
   ncol example_batch = nvis example_RBM_attrs) /\
  free_energy_given_v (H := example_Backend)
    (GaussianBinaryRBM 1 example_RBM_attrs (Shared 6 "sigma" [1; 1]%Q) false)
    example_batch =
  vtabulate (nrow example_batch)
    (spec_Gaussian_free_energy (H := example_Backend) example_RBM_attrs
       [1; 1]%Q example_batch).
Proof.
  split; [split; [apply example_wf_RBM_attrs | reflexivity]|].
  apply (@C7_Gaussian_binary_free_energy example_Backend 1%positive
           example_RBM_attrs (Shared 6 "sigma" [1; 1]%Q) false example_batch
           example_wf_RBM_attrs eq_refl).
Defined.

Lemma C8_pooled_ssRBM_free_energy_witness :
  (wf_ssRBM_attrs example_ssRBM_attrs /\
   ncol example_batch = ss_nvis example_ssRBM_attrs) /\
  free_energy_given_v (H := example_Backend)
    (mu_pooled_ssRBM 6 example_ssRBM_attrs) example_batch =
  vtabulate (nrow example_batch)
    (spec_ssRBM_free_energy (H := example_Backend) example_ssRBM_attrs
       example_batch).
Proof.
  split; [split; [apply example_wf_ssRBM_attrs | reflexivity]|].
  apply (@C8_pooled_ssRBM_free_energy example_Backend 6%positive
           example_ssRBM_attrs example_batch example_wf_ssRBM_attrs eq_refl).
Defined.

Lemma C10_updates_attaches_h_sample_witness :
  (h_sample_attr example_world_sampler !! object_id (rbm example_sampler) = None /\
   (sv_id (particles example_sampler) < next_id example_world_sampler)%positive /\
   (1 <= steps example_sampler)%Z) /\
  (exists r w',
     @updates example_Backend example_RandomStreams example_sampler
       example_world_sampler = (r, w') /\
     h_sample_attr w' =
       <[object_id (rbm example_sampler) :=
           Shared (next_id example_world_sampler) "h_sample" (zeros2 0 0)]>
         (h_sample_attr example_world_sampler)) /\
  (exists self_1 w_1 (upd : update_set) self_2 w_2,
     @calls example_Backend example_RandomStreams 1 example_sampler
       example_world_sampler = (Ok self_1, w_1) /\
     @updates example_Backend example_RandomStreams self_1 w_1 =
       (Ok (upd, self_2), w_2) /\
     dom upd = {[5%positive; 6%positive]}).
Proof.
  assert (Hsteps : (1 <= steps example_sampler)%Z) by (simpl; lia).
  split; [repeat split; assumption|].
  destruct (@C10_updates_attaches_h_sample example_Backend
              example_RandomStreams example_sampler example_world_sampler
              eq_refl eq_refl)
    as (_ & Hfirst & Hcalls).
  split; [exact Hfirst|].
  destruct (Hcalls Hsteps 1%nat)
    as (self_1 & w_1 & Hc & _ & q & s1 & sample & l & s2 & upd & w_2 &
        _ & _ & _ & Hu & _ & Hdom & _).
  exists self_1, w_1, upd. eexists. exists w_2.
  split; [exact Hc|]. split; [exact Hu|]. exact Hdom.
Defined.
(** ** More statements at the example objects *)

(** The draws of the example generator lie in [[0, 1]]. *)
Lemma example_random_sample_unit (st : @RandomState example_NumpyRandom) :
  (0 <= fst (@random_sample example_NumpyRandom st) <= 1)%Q.
Proof.
  unfold example_NumpyRandom. simpl.
  pose proof (Z.mod_pos_bound st 10 ltac:(lia)) as Hb.
  split; unfold Qle; simpl; lia.
Defined.

Lemma X1_reconstruction_error_nonneg_witness :
  (model_wf (mu_pooled_ssRBM 6 example_ssRBM_attrs) /\
   @model_defined example_Backend (mu_pooled_ssRBM 6 example_ssRBM_attrs) /\
   (0 < model_batch_size (mu_pooled_ssRBM 6 example_ssRBM_attrs))%nat /\
   mshape example_batch =
     (model_batch_size (mu_pooled_ssRBM 6 example_ssRBM_attrs),
      model_nvis (mu_pooled_ssRBM 6 example_ssRBM_attrs))) /\
  exists e s',
    @reconstruction_error example_Backend example_RandomStreams
      (mu_pooled_ssRBM 6 example_ssRBM_attrs) example_batch 85%Z =
      (Ok e, s') /\ (0 <= e)%Q.
Proof.
  assert (Hb : (0 < model_batch_size
                     (mu_pooled_ssRBM 6 example_ssRBM_attrs))%nat)
    by (simpl; lia).
  split;
    [split; [exact example_wf_ssRBM_attrs|];
     split; [exact example_ssRBM_defined|];
     split; [exact Hb | reflexivity]|].
  exact (@X1_reconstruction_error_nonneg example_Backend example_RandomStreams
           (mu_pooled_ssRBM 6 example_ssRBM_attrs) example_batch 85%Z
           example_wf_ssRBM_attrs example_ssRBM_defined Hb eq_refl).
Defined.

Lemma X3_Gaussian_visible_sample_witness :
  (wf_RBM_attrs example_RBM_attrs /\
   length [1; 1]%Q = nvis example_RBM_attrs /\
   mshape example_batch =
     (batch_size example_RBM_attrs, nvis example_RBM_attrs)) /\
  exists l,
    @gibbs_step_for_v example_Backend example_RandomStreams
      (GaussianBinaryRBM 1 example_RBM_attrs (Shared 6 "sigma" [1; 1]%Q) true)
      example_batch 85%Z =
    (Ok (v_mean l, l),
     snd (draw_vector (@next_uniform example_RandomStreams) 6 85%Z)).
Proof.
  split; [split; [exact example_wf_RBM_attrs | split; reflexivity]|].
  exact (proj1 (@X3_Gaussian_visible_sample example_Backend
                  example_RandomStreams 1%positive example_RBM_attrs
                  (Shared 6 "sigma" [1; 1]%Q) example_batch 85%Z
                  example_wf_RBM_attrs eq_refl eq_refl)).
Defined.

Lemma X4_gibbs_step_sample_shape_witness :
  (model_wf example_model /\
   mshape example_batch =
     (model_batch_size example_model, model_nvis example_model)) /\
  exists sample l s',
    @gibbs_step_for_v example_Backend example_RandomStreams example_model
      example_batch 85%Z = (Ok (sample, l), s') /\
    mshape sample = (2, 2)%nat /\
    all_entries (fun x => x = 0%Q \/ x = 1%Q) sample.
Proof.
  split; [split; [exact example_wf_RBM_attrs | reflexivity]|].
  destruct (@X4_gibbs_step_sample_shape example_Backend example_RandomStreams
              example_model example_batch 85%Z example_wf_RBM_attrs eq_refl)
    as (sample & l & s' & Hg & Hshape & _ & Hbin).
  exists sample, l, s'. split; [exact Hg|]. split; [exact Hshape | exact Hbin].
Defined.

Lemma X5_updates_particles_shape_witness :
  (model_wf (rbm example_sampler) /\
   mshape (get_value (particles example_sampler)) =
     (model_batch_size (rbm example_sampler),
      model_nvis (rbm example_sampler)) /\
   (1 <= steps example_sampler)%Z /\
   particles_apart example_sampler example_world_sampler) /\
  exists (upd : update_set) new_particles,
    upd !! sv_id (particles example_sampler) = Some (Mat new_particles) /\
    mshape new_particles = (2, 2)%nat.
Proof.
  assert (Hsteps : (1 <= steps example_sampler)%Z) by (simpl; lia).
  split;
    [split; [exact example_wf_RBM_attrs |
     split; [reflexivity | split; [exact Hsteps | exact example_particles_apart]]]|].
  destruct (@X5_updates_particles_shape example_Backend example_RandomStreams
              example_sampler example_world_sampler example_wf_RBM_attrs
              eq_refl Hsteps example_particles_apart)
    as (upd & self' & w' & new_particles & _ & Hlook & Hshape & _).
  exists upd, new_particles. split; [exact Hlook | exact Hshape].
Defined.

Lemma X6_binary_chain_clip_is_identity_witness :
  (rbm example_sampler = RBM 1 example_RBM_attrs /\
   particles_clip example_sampler = Some (0, 1)%Q /\
   (0 <= 0)%Q /\ (1 <= 1)%Q /\ (1 <= steps example_sampler)%Z) /\
  exists upd s' w',
    @updates example_Backend example_RandomStreams example_sampler
      example_world_sampler = (Ok (upd, advanced example_sampler s'), w') /\
    @updates example_Backend example_RandomStreams
      (without_clip example_sampler) example_world_sampler =
      (Ok (upd, advanced (without_clip example_sampler) s'), w').
Proof.
  assert (Hsteps : (1 <= steps example_sampler)%Z) by (simpl; lia).
  assert (H0 : (0 <= 0)%Q) by apply Qle_refl.
  assert (H1 : (1 <= 1)%Q) by apply Qle_refl.
  split; [repeat split; assumption|].
  exact (@X6_binary_chain_clip_is_identity example_Backend
           example_RandomStreams example_sampler 1%positive example_RBM_attrs
           0%Q 1%Q example_world_sampler eq_refl eq_refl H0 H1 Hsteps).
Defined.

Lemma X8_training_updates_no_step_witness :
  (steps {| rbm := example_model;
            s_rng := (85%Z : @stream example_RandomStreams);
            particles := particles example_sampler;
            steps := 0;
            particles_clip := None |} <= 0)%Z /\
  fst (@training_updates example_Backend example_RandomStreams
         example_AutoDiff example_batch example_model
         {| rbm := example_model;
            s_rng := (85%Z : @stream example_RandomStreams);
            particles := particles example_sampler;
            steps := 0;
            particles_clip := None |}
         (example_Optimizer [2; 3; 4]%positive) example_world_sampler) =
  Raise (UnboundLocalError "_locals").
Proof.
  assert (Hsteps :
    (steps {| rbm := example_model;
              s_rng := (85%Z : @stream example_RandomStreams);
              particles := particles example_sampler;
              steps := 0;
              particles_clip := None |} <= 0)%Z) by (simpl; lia).
  split; [exact Hsteps|].
  exact (proj1 (@X8_training_updates_no_step example_Backend
                  example_RandomStreams example_AutoDiff example_batch
                  example_model _ (example_Optimizer [2; 3; 4]%positive)
                  example_world_sampler Hsteps)).
Defined.

Lemma X9_RBM_constructor_witness :
  (@is_rng_int example_NumpyRandom rng_None = false /\
   (forall st, (0 <= fst (@random_sample example_NumpyRandom st) <= 1)%Q) /\
   (0 <= 1 # 10)%Q) /\
  exists a rng' w',
    @new_RBM example_NumpyRandom 2 3 2 (1 # 10) rng_None example_world =
      (Ok (RBM 1 a, rng'), w') /\
    all_entries (fun x => (- ((1 # 10) / 2) <= x <= (1 # 10) / 2)%Q)
      (get_value (weights a)).
Proof.
  assert (Hi : (0 <= 1 # 10)%Q) by (unfold Qle; simpl; lia).
  split; [split; [reflexivity | split; [exact example_random_sample_unit | exact Hi]]|].
  destruct (@X9_RBM_constructor example_NumpyRandom 2 3 2 (1 # 10) rng_None
              example_world eq_refl example_random_sample_unit Hi)
    as (a & rng' & w' & Hnew & _ & _ & _ & _ & Hall & _).
  exists a, rng', w'. split; [exact Hnew | exact Hall].
Defined.

Lemma X11_Gaussian_constructor_unit_sigma_witness :
  @is_rng_int example_NumpyRandom rng_None = false /\
  exists a sigma rng' w',
    @new_GaussianBinaryRBM example_NumpyRandom 2 3 2 (1 # 10) rng_None false
      example_world =
      (Ok (GaussianBinaryRBM 1 a sigma false, rng'), w') /\
    get_value sigma = [1; 1]%Q.
Proof.
  split; [reflexivity|].
  destruct (@X11_Gaussian_constructor_unit_sigma example_Backend
              example_NumpyRandom 2 3 2 (1 # 10) rng_None false example_world
              eq_refl)
    as (a & sigma & rng' & w' & Hnew & _ & _ & Hsigma & _).
  exists a, sigma, rng', w'. split; [exact Hnew | exact Hsigma].
Defined.

Lemma X13_binary_free_energy_witness :
  (wf_RBM_attrs example_RBM_attrs /\
   ncol example_batch = nvis example_RBM_attrs) /\
  @free_energy_given_v example_Backend example_model example_batch =
  vtabulate (nrow example_batch)
    (@RBM_free_energy_entry example_Backend example_RBM_attrs example_batch).
Proof.
  split; [split; [exact example_wf_RBM_attrs | reflexivity]|].
  exact (proj2 (proj2 (@X13_binary_free_energy example_Backend 1%positive
                         example_RBM_attrs example_batch example_wf_RBM_attrs
                         eq_refl))).
Defined.

Lemma X14_mean_v_given_h_entries_witness :
  (wf_RBM_attrs example_RBM_attrs /\
   ncol (of_rows 3 [[1; 0; 1]; [0; 1; 0]]%Q) = nhid example_RBM_attrs) /\
  @mean_v_given_h example_Backend
    (GaussianBinaryRBM 1 example_RBM_attrs (Shared 6 "sigma" [1; 1]%Q) false)
    (of_rows 3 [[1; 0; 1]; [0; 1; 0]]%Q) =
  Ok (tabulate 2 2
        (fun i k =>
           (item [0; 0] k +
            item [1; 1] k *
            RBM_feedback_entry example_RBM_attrs
              (of_rows 3 [[1; 0; 1]; [0; 1; 0]]) i k)%Q)).
Proof.
  split; [split; [exact example_wf_RBM_attrs | reflexivity]|].
  exact (proj2 (@X14_mean_v_given_h_entries example_Backend 1%positive
                  example_RBM_attrs (Shared 6 "sigma" [1; 1]%Q) false
                  (of_rows 3 [[1; 0; 1]; [0; 1; 0]]%Q) example_wf_RBM_attrs
                  eq_refl)).
Defined.

Lemma X15_pooled_ssRBM_conditionals_witness :
  (wf_ssRBM_attrs example_ssRBM_attrs /\
   ncol example_batch = ss_nvis example_ssRBM_attrs /\
   ncol (of_rows 2 [[1; 0]; [0; 1]]%Q) = ss_nhid example_ssRBM_attrs /\
   ncol (of_rows 4 [[1; 0; 1; 0]; [0; 1; 0; 1]]%Q) =
     ss_nslab example_ssRBM_attrs /\
   nrow (of_rows 2 [[1; 0]; [0; 1]]%Q) =
     nrow (of_rows 4 [[1; 0; 1; 0]; [0; 1; 0; 1]]%Q)) /\
  snd (@mean_var_v_given_h_s example_ssRBM_attrs
         (of_rows 2 [[1; 0]; [0; 1]]%Q)
         (of_rows 4 [[1; 0; 1; 0]; [0; 1; 0; 1]]%Q)) =
  tabulate 2 2
    (ssRBM_v_var_entry example_ssRBM_attrs (of_rows 2 [[1; 0]; [0; 1]]%Q)).
Proof.
  split; [split; [exact example_wf_ssRBM_attrs | repeat split]|].
  exact (proj1 (proj2 (@X15_pooled_ssRBM_conditionals example_Backend
                         example_ssRBM_attrs example_batch
                         (of_rows 2 [[1; 0]; [0; 1]]%Q)
                         (of_rows 4 [[1; 0; 1; 0]; [0; 1; 0; 1]]%Q)
                         example_wf_ssRBM_attrs eq_refl eq_refl eq_refl
                         eq_refl))).
Defined.

Lemma X16_pooled_ssRBM_constructor_witness :
  (@is_rng_int example_NumpyRandom rng_None = false /\ (0 < 2)%nat) /\
  exists a rng' w',
    @new_mu_pooled_ssRBM example_NumpyRandom example_NumpyMath 2 2 2 2
      1 0 0 1 1 0 1 (1 # 10) rng_None example_world =
      (Ok (mu_pooled_ssRBM 1 a, rng'), w') /\
    wf_ssRBM_attrs a.
Proof.
  assert (Hn : (0 < 2)%nat) by lia.
  split; [split; [reflexivity | exact Hn]|].
  destruct (@X16_pooled_ssRBM_constructor example_NumpyRandom
              example_NumpyMath 2 2 2 2 1 0 0 1 1 0 1 (1 # 10) rng_None
              example_world eq_refl Hn)
    as (a & rng' & w' & Hnew & _ & Hwf & _).
  exists a, rng', w'. split; [exact Hnew | exact Hwf].
Defined.

Lemma X17_training_on_new_objects_witness :
  (@is_rng_int example_NumpyRandom rng_None = false /\
   (1 <= 2)%Z /\
   h_sample_attr example_world !! next_id example_world = None) /\
  exists m rng1 w1 sampler srng1 w2,
    @new_RBM example_NumpyRandom 2 3 2 (1 # 10) rng_None example_world =
      (Ok (m, rng1), w1) /\
    @new_PersistentCDSampler example_RandomStreams example_NumpyRandom m
      example_batch rng_None 2 (Some (0, 1)%Q) w1 =
      (Ok (sampler, srng1), w2).
Proof.
  assert (Hsteps : (1 <= 2)%Z) by lia.
  split; [split; [reflexivity | split; [exact Hsteps | reflexivity]]|].
  destruct (@X17_training_on_new_objects example_Backend
              example_RandomStreams example_NumpyRandom example_AutoDiff
              2 3 2 (1 # 10) rng_None rng_None example_batch 2%Z
              (Some (0, 1)%Q) example_world eq_refl Hsteps eq_refl)
    as (m & rng1 & w1 & sampler & srng1 & w2 & Hm & Hs & _).
  exists m, rng1, w1, sampler, srng1, w2. split; [exact Hm | exact Hs].
Defined.
